(** * Filter lists: list-type resolution, relevance resolver and construction

    A shallow embedding of [bot/exts/filtering/_filter_lists/filter_list.py]:
    the [ListType] enumeration, [ListTypeConverter.convert],
    [FilterList.add_list] and [FilterList.filter_list_result].

    Python dictionaries are finite maps ([gmap]), Python sets are finite sets
    ([gset]), exceptions are the [Raise] outcome of a state-and-error monad
    whose state survives a raised exception, as a mutated Python object does. *)

From stdpp Require Import gmap strings list fin_maps pretty.

Open Scope string_scope.
Open Scope list_scope.

(** ** Python values, exceptions and outcomes *)

(** The values a payload carries under its ["list_type"] key: the integers
    that the site stores and the strings that the commands use.  The other
    JSON values (booleans, numbers with a fraction, [null]) are left out, and
    nothing below speaks of them. *)
Inductive pyvalue :=
| PyInt (n : Z)
| PyStr (s : string).

(** The exception classes the module raises or meets.  [BadArgument] stands
    for the message [f"No matching list type found for {argument!r}."], and
    carries the argument the message quotes; [ValueError] is what the [Enum]
    call raises for a value that belongs to no member.  [OtherError] is any
    class that does not derive from [TypeError]. *)
Inductive exn :=
| TypeError (msg : string)
| KeyError (key : string)
| ValueError (v : pyvalue)
| BadArgument (argument : string)
| OtherError (cls msg : string).

(** [except TypeError] *)
Definition is_TypeError (e : exn) : bool :=
  match e with
  | TypeError _ => true
  | _ => false
  end.

Inductive result (A : Type) :=
| Ok (a : A)
| Raise (e : exn).
Arguments Ok {A} a.
Arguments Raise {A} e.

(** ** [class ListType(Enum)] *)

Inductive ListType :=
| DENY
| ALLOW.


#[global] Instance ListType_eq_dec : EqDecision ListType.
Proof. solve_decision. Defined.

#[global] Instance ListType_countable : Countable ListType.
Proof.
  refine (inj_countable' (fun t => match t with DENY => false | ALLOW => true end)
                         (fun b => if b then ALLOW else DENY) _).
  by intros [].
Defined.

(** [ListType(value)], the lookup of a member by its value, on the integers
    and the strings. *)
Definition ListType_call (v : pyvalue) : result ListType :=
  match v with
  | PyInt 0 => Ok DENY
  | PyInt 1 => Ok ALLOW
  | _ => Raise (ValueError v)
  end.

(** ** [class ListTypeConverter] *)

Module ListTypeConverter.

Definition aliases : list (ListType * gset string) :=
  [ (DENY, {[ "deny"; "blocklist"; "blacklist"; "denylist"; "bl"; "dl" ]});
    (ALLOW, {[ "allow"; "allowlist"; "whitelist"; "al"; "wl" ]}) ].

Section Convert.
(** [past_tense] comes from [bot/exts/filtering/_utils.py]; the converter
    only applies it to each alias. *)
Variable past_tense : string -> string.

(** [argument in aliases or argument in map(past_tense, aliases)] *)
Definition row_matches (argument : string) (row : gset string) : bool :=
  bool_decide (argument ∈ row)
  || bool_decide (argument ∈ past_tense <$> elements row).

(** The [for list_type, aliases in self.aliases] loop, followed by the
    [raise] after it. *)
Fixpoint convert_loop (rows : list (ListType * gset string))
         (argument : string) : result ListType :=
  match rows with
  | [] => Raise (BadArgument argument)
  | (list_type, row) :: rows' =>
      if row_matches argument row then Ok list_type
      else convert_loop rows' argument
  end.

Definition convert (argument : string) : result ListType :=
  convert_loop aliases argument.

(** The tokens that designate a member: its aliases and the past tense
    of each. *)
Definition designates (t : ListType) (argument : string) : Prop :=
  ∃ row, (t, row) ∈ aliases
         ∧ (argument ∈ row ∨ ∃ a, a ∈ row ∧ argument = past_tense a).

(** The same tokens, as the list the loop compares the argument with. *)
Definition tokens (row : gset string) : list string :=
  elements row ++ (past_tense <$> elements row).

(** No token of the [ALLOW] row is matched by the [DENY] row, which the
    loop tries first. *)
Definition rows_apart : bool :=
  forallb (λ token, negb (row_matches token
             {[ "deny"; "blocklist"; "blacklist"; "denylist"; "bl"; "dl" ]}))
          (tokens {[ "allow"; "allowlist"; "whitelist"; "al"; "wl" ]}).

End Convert.

(** Modelled from the spec: [past_tense] is not among the sources and §4.1
    only speaks of simple tense variants of each alias.  This instance, the
    regular suffix, serves as an example of such a function. *)
Definition past_tense_regular (word : string) : string := word ++ "ed".

End ListTypeConverter.

(** ** The state-and-error monad

    A computation takes the state, and gives an outcome and the state it
    left: a raised exception does not undo the assignments made before it. *)

Definition M (S A : Type) : Type := S → result A * S.

#[global] Instance M_ret {S} : MRet (M S) := λ A a s, (Ok a, s).

#[global] Instance M_bind {S} : MBind (M S) := λ A B k m s,
  match m s with
  | (Ok a, s') => k a s'
  | (Raise e, s') => (Raise e, s')
  end.

Definition raise {S A} (e : exn) : M S A := λ s, (Raise e, s).

Definition lift {S A} (r : result A) : M S A := λ s, (r, s).

Definition gets {S A} (f : S → A) : M S A := λ s, (Ok (f s), s).

Definition modify {S} (f : S → S) : M S unit := λ s, (Ok tt, f s).

(** [try: body except TypeError as e: handler(e)] *)
Definition try_except_TypeError {S A} (body : M S A) (handler : exn → M S A) : M S A :=
  λ s, match body s with
       | (Raise e, s') => if is_TypeError e then handler e s' else (Raise e, s')
       | (Ok a, s') => (Ok a, s')
       end.

(** [d[key]] on a payload whose key may be absent. *)
Definition getitem {S V} (field : option V) (key : string) : M S V :=
  match field with
  | Some v => mret v
  | None => raise (KeyError key)
  end.

(** [for x in xs: acc = body(acc, x)], in the monad. *)
Fixpoint for_each {S X A} (body : A → X → M S A) (xs : list X) (acc : A) : M S A :=
  match xs with
  | [] => mret acc
  | x :: xs' => acc' ← body acc x; for_each body xs' acc'
  end.

(** ** Validation settings, filters and the relevance resolver *)

Section Model.

(** [FilterContext] and [ActionSettings] are only passed around by this
    module: it reads no field of either. *)
Context {FilterContext ActionSettings : Type}.

(** Modelled from the spec: [ValidationSettings] and its [evaluate] are in
    [bot/exts/filtering/_settings.py], which is not among the sources.
    Following §2 and §3, a validation rule set is a collection of named
    boolean predicates over a context, the names being its unique keys. *)
Record ValidationSettings := {
  entries : gmap string (FilterContext → bool);
}.

(** Modelled from the spec: [evaluate] of the missing [ValidationSettings]
    gives the pair (passed rule names, failed rule names); each rule is in
    exactly one of the two sets (§3, ValidationOutcome). *)
Definition evaluate (self : ValidationSettings) (ctx : FilterContext)
  : gset string * gset string :=
  (dom (filter (λ entry, entry.2 ctx = true) (entries self)),
   dom (filter (λ entry, entry.2 ctx = false) (entries self))).

(** Modelled from the spec: [Filter] is in
    [bot/exts/filtering/_filters/filter.py], which is not among the
    sources.  Following §3 a filter has an identity, a trigger predicate,
    an optional validation rule set and a reference to action settings. *)
Record Filter := {
  filter_id : Z;
  triggered_on : FilterContext → bool;
  validations : option ValidationSettings;
  actions : option ActionSettings;
}.

(** [bool(s)] of a set. *)
Definition set_bool (s : gset string) : bool := negb (bool_decide (s = ∅)).

(** Modelled from the spec: the truth value of [filter_.validations].
    [None] is false; following §4.2 a rule set that is present, even with
    no entries, takes the branch of the filters that have overrides. *)
Definition validations_bool (v : option ValidationSettings) : bool :=
  match v with
  | None => false
  | Some _ => true
  end.

(** The body of the [for filter_ in filters] loop of [filter_list_result]:
    [relevant_filters] after the iteration on [filter_]. *)
Definition filter_list_result_body (ctx : FilterContext)
           (failed_by_default : gset string) (default_answer : bool)
           (relevant_filters : list Filter) (filter_ : Filter) : list Filter :=
  if negb (validations_bool (validations filter_)) then
    if default_answer && triggered_on filter_ ctx
    then relevant_filters ++ [filter_]
    else relevant_filters
  else
    match validations filter_ with
    | Some filter_validations =>
        let '(passed, failed) := evaluate filter_validations ctx in
        if negb (set_bool failed) && bool_decide (failed_by_default ⊂ passed)
        then
          if triggered_on filter_ ctx
          then relevant_filters ++ [filter_]
          else relevant_filters
        else relevant_filters
    | None => relevant_filters (* not reached: [None] is false *)
    end.

Definition filter_list_result (ctx : FilterContext) (filters : list Filter)
           (defaults : ValidationSettings) : list Filter :=
  let '(passed_by_default, failed_by_default) := evaluate defaults ctx in
  let default_answer := negb (set_bool failed_by_default) in
  fold_left (filter_list_result_body ctx failed_by_default default_answer)
            filters [].

(** The condition under which the loop body appends [filter_]. *)
Definition selects (ctx : FilterContext) (failed_by_default : gset string)
           (filter_ : Filter) : bool :=
  match validations filter_ with
  | None => bool_decide (failed_by_default = ∅) && triggered_on filter_ ctx
  | Some filter_validations =>
      bool_decide ((evaluate filter_validations ctx).2 = ∅)
      && bool_decide (failed_by_default ⊂ (evaluate filter_validations ctx).1)
      && triggered_on filter_ ctx
  end.

(** *** The resolver over the caller's objects

    The arguments of [filter_list_result] are references to the caller's
    list of filters and validation settings. *)
Record Store := {
  st_filters : list Filter;
  st_defaults : ValidationSettings;
}.

Definition filter_list_result_on_store (ctx : FilterContext) : M Store (list Filter) :=
  defaults ← gets st_defaults;
  '(passed_by_default, failed_by_default) ← mret (evaluate defaults ctx);
  default_answer ← mret (negb (set_bool failed_by_default));
  filters ← gets st_filters;
  for_each (λ relevant_filters filter_,
              mret (filter_list_result_body ctx failed_by_default default_answer
                                            relevant_filters filter_))
           filters [].

(** *** What the specification says of one filter *)

(** §4.2 and the docstring: without overrides a filter is relevant when no
    default validation failed; with overrides, when none of them failed and
    every failed default is among the passed overrides. *)
Definition relevant_by_spec (ctx : FilterContext) (defaults : ValidationSettings)
           (filter_ : Filter) : Prop :=
  match validations filter_ with
  | None => (evaluate defaults ctx).2 = ∅
  | Some v => (evaluate v ctx).2 = ∅ ∧ (evaluate defaults ctx).2 ⊆ (evaluate v ctx).1
  end.

(** A filter lacks matching overrides when it has none, or when some failed
    default is not among its passed overrides. *)
Definition lacks_matching_overrides (ctx : FilterContext)
           (defaults : ValidationSettings) (filter_ : Filter) : Prop :=
  match validations filter_ with
  | None => True
  | Some v => ¬ (evaluate defaults ctx).2 ⊆ (evaluate v ctx).1
  end.

(** The copy of a filter with its rule set replaced. *)
Definition with_validations (v : option ValidationSettings) (f : Filter) : Filter :=
  {| filter_id := filter_id f; triggered_on := triggered_on f;
     validations := v; actions := actions f |}.

(** ** Construction: [FilterList.__init__] and [FilterList.add_list] *)

Section Construction.

(** The payloads of the settings and of one filter are parsed by
    [create_settings] and by the filter class; this module only hands
    them over. *)
Context {SettingsData FilterData : Type}.

(** [create_settings] comes from [bot/exts/filtering/_settings.py]. *)
Variable create_settings :
  SettingsData → result (option ActionSettings * option ValidationSettings).

(** The [list_data] dictionary; [None] is an absent key. *)
Record ListData := {
  ld_settings : option SettingsData;
  ld_list_type : option pyvalue;
  ld_filters : option (list FilterData);
}.

(** The dictionary [{"actions": actions, "validations": validations}]. *)
Record Defaults := {
  d_actions : option ActionSettings;
  d_validations : option ValidationSettings;
}.

Record FilterList := {
  filter_lists : gmap ListType (list Filter);
  defaults : gmap ListType Defaults;
  filter_type : FilterData → option ActionSettings → result Filter;
}.

(** The filter list together with what the module logger received. *)
Record World := {
  self : FilterList;
  log : list exn;
}.

Definition FilterList_init
           (filter_type : FilterData → option ActionSettings → result Filter)
  : FilterList :=
  {| filter_lists := ∅; defaults := ∅; filter_type := filter_type |}.

(** [self.defaults[list_type] = value] *)
Definition set_defaults (list_type : ListType) (value : Defaults) (w : World) : World :=
  {| self := {| filter_lists := filter_lists (self w);
                defaults := <[list_type := value]> (defaults (self w));
                filter_type := filter_type (self w) |};
     log := log w |}.

(** [self.filter_lists[list_type] = filters] *)
Definition set_filter_lists (list_type : ListType) (filters : list Filter)
           (w : World) : World :=
  {| self := {| filter_lists := <[list_type := filters]> (filter_lists (self w));
                defaults := defaults (self w);
                filter_type := filter_type (self w) |};
     log := log w |}.

(** The world after the logger received [warnings]. *)
Definition with_log (w : World) (warnings : list exn) : World :=
  {| self := self w; log := log w ++ warnings |}.

(** [log.warning(e)] *)
Definition log_warning (e : exn) : M World unit :=
  modify (λ w, with_log w [e]).

(** One iteration of [for filter_data in list_data["filters"]]. *)
Definition add_list_body (actions : option ActionSettings)
           (filters : list Filter) (filter_data : FilterData)
  : M World (list Filter) :=
  try_except_TypeError
    (filter_type ← gets (λ w, filter_type (self w));
     new_filter ← lift (filter_type filter_data actions);
     mret (filters ++ [new_filter]))
    (λ e, log_warning e;; mret filters).

Definition add_list (list_data : ListData) : M World unit :=
  settings_data ← getitem (ld_settings list_data) "settings";
  '(actions, validations) ← lift (create_settings settings_data);
  list_type_value ← getitem (ld_list_type list_data) "list_type";
  list_type ← lift (ListType_call list_type_value);
  modify (set_defaults list_type
            {| d_actions := actions; d_validations := validations |});;
  filter_payloads ← getitem (ld_filters list_data) "filters";
  filters ← for_each (add_list_body actions) filter_payloads [];
  modify (set_filter_lists list_type filters).

(** A caller that issues the calls one after the other and goes on after
    a call that raised. *)
Definition add_lists (calls : list ListData) (w : World) : World :=
  fold_left (λ w list_data, (add_list list_data w).2) calls w.

(** The filters of the payloads whose construction succeeds, in order. *)
Definition constructed (filter_type : FilterData → option ActionSettings → result Filter)
           (actions : option ActionSettings) (payloads : list FilterData)
  : list Filter :=
  omap (λ filter_data, match filter_type filter_data actions with
                       | Ok f => Some f
                       | Raise _ => None
                       end) payloads.

(** The construction of this payload raises. *)
Definition malformed (filter_type : FilterData → option ActionSettings → result Filter)
           (actions : option ActionSettings) (filter_data : FilterData) : bool :=
  match filter_type filter_data actions with
  | Ok _ => false
  | Raise _ => true
  end.

(** The construction of this payload raises a [TypeError]. *)
Definition raises_TypeError (filter_type : FilterData → option ActionSettings → result Filter)
           (actions : option ActionSettings) (filter_data : FilterData) : bool :=
  match filter_type filter_data actions with
  | Ok _ => false
  | Raise e => is_TypeError e
  end.

(** The exceptions the loop hands to the logger, in order. *)
Definition logged (filter_type : FilterData → option ActionSettings → result Filter)
           (actions : option ActionSettings) (payloads : list FilterData)
  : list exn :=
  omap (λ filter_data, match filter_type filter_data actions with
                       | Ok _ => None
                       | Raise e => Some e
                       end) payloads.

(** The number of entries a dictionary holds under one key. *)
Definition entries_for {V} (list_type : ListType) (d : gmap ListType V) : nat :=
  length (filter (λ kv, kv.1 = list_type) (map_to_list d)).

End Construction.

End Model.

Arguments ValidationSettings : clear implicits.
Arguments Filter : clear implicits.
Arguments Store : clear implicits.
Arguments ListData : clear implicits.
Arguments Defaults : clear implicits.
Arguments FilterList : clear implicits.
Arguments World : clear implicits.
Arguments evaluate : simpl never.

(** ** Sample data

    The scenario of §8: the context is the name of a channel, the list's
    default validation [public_channel] fails in the channel [mod-log]. *)

Module Scenario.

Definition in_channel (name : string) (ctx : string) : bool := String.eqb ctx name.

Definition ctx : string := "mod-log".

Definition default_validations : ValidationSettings string :=
  {| entries := {[ "public_channel" := in_channel "general" ]} |}.

(** Defaults that all pass in [ctx]. *)
Definition defaults_pass : ValidationSettings string :=
  {| entries := {[ "public_channel" := in_channel "mod-log" ]} |}.

Definition always : string → bool := λ _, true.

Definition F1 : Filter string unit :=
  {| filter_id := 1; triggered_on := always; validations := None; actions := None |}.

Definition F2 : Filter string unit :=
  {| filter_id := 2; triggered_on := always;
     validations := Some {| entries := {[ "public_channel" := in_channel "mod-log" ]} |};
     actions := None |}.

Definition F3 : Filter string unit :=
  {| filter_id := 3; triggered_on := always;
     validations := Some {| entries := {[ "other_rule" := always ]} |};
     actions := None |}.

(** A filter that reclaims the failed default and passes one more rule. *)
Definition F4 : Filter string unit :=
  {| filter_id := 4; triggered_on := always;
     validations := Some {| entries := {[ "public_channel" := in_channel "mod-log";
                                          "other_rule" := always ]} |};
     actions := None |}.

(** A rule set that is present and has no entries. *)
Definition no_entries : ValidationSettings string := {| entries := ∅ |}.

(** Payloads for the construction: a settings payload is well formed when
    it carries its text, a filter payload says how its construction ends. *)
Inductive filter_payload :=
| WellFormed (n : Z)
| MissingField (n : Z)
| BadContent (n : Z).

Definition filter_type (filter_data : filter_payload) (actions : option unit)
  : result (Filter string unit) :=
  match filter_data with
  | WellFormed n => Ok {| filter_id := n; triggered_on := always;
                          validations := None; actions := actions |}
  | MissingField n => Raise (TypeError "missing a required field")
  | BadContent n => Raise (OtherError "re.error" "unterminated character set")
  end.

Definition create_settings (settings_data : option string)
  : result (option unit * option (ValidationSettings string)) :=
  match settings_data with
  | Some _ => Ok (Some tt, Some default_validations)
  | None => Raise (TypeError "settings are not a mapping")
  end.

Definition fresh : World string unit filter_payload :=
  {| self := FilterList_init filter_type; log := [] |}.

Definition payload (list_type : pyvalue) (filters : list filter_payload)
  : ListData (option string) filter_payload :=
  {| ld_settings := Some (Some "{}"); ld_list_type := Some list_type;
     ld_filters := Some filters |}.

End Scenario.

(** ** The effect of [add_list] on the filter list object *)

Section ConstructionSummary.

Context {FilterContext ActionSettings SettingsData FilterData : Type}.

Variable create_settings :
  SettingsData → result (option ActionSettings * option (ValidationSettings FilterContext)).

(** Every construction that fails among the payloads raises a [TypeError]:
    the loop of [add_list] runs to its end. *)
Definition tolerated
           (filter_type : FilterData → option ActionSettings
                          → result (Filter FilterContext ActionSettings))
           (actions : option ActionSettings) (payloads : list FilterData) : bool :=
  forallb (λ filter_data,
             Bool.eqb (malformed filter_type actions filter_data)
                      (raises_TypeError filter_type actions filter_data))
          payloads.

(** The filter list object a call of [add_list] leaves, from the one it
    found: nothing is assigned before the settings and the list type are
    resolved, then the defaults are, and the partition is after a loop that
    ran to its end. *)
Definition add_list_update (list_data : ListData SettingsData FilterData)
           (fl : FilterList FilterContext ActionSettings FilterData)
  : FilterList FilterContext ActionSettings FilterData :=
  match ld_settings list_data with
  | None => fl
  | Some settings_data =>
      match create_settings settings_data with
      | Raise _ => fl
      | Ok (acts, vals) =>
          match ld_list_type list_data with
          | None => fl
          | Some v =>
              match ListType_call v with
              | Raise _ => fl
              | Ok list_type =>
                  let new_defaults :=
                    <[list_type := {| d_actions := acts; d_validations := vals |}]>
                      (defaults fl) in
                  match ld_filters list_data with
                  | None =>
                      {| filter_lists := filter_lists fl; defaults := new_defaults;
                         filter_type := filter_type fl |}
                  | Some payloads =>
                      if tolerated (filter_type fl) acts payloads
                      then {| filter_lists :=
                                <[list_type := constructed (filter_type fl) acts payloads]>
                                  (filter_lists fl);
                              defaults := new_defaults;
                              filter_type := filter_type fl |}
                      else {| filter_lists := filter_lists fl; defaults := new_defaults;
                              filter_type := filter_type fl |}
                  end
              end
          end
      end
  end.

End ConstructionSummary.

(** * The talent pool cog

    A shallow embedding of the command callbacks of
    [bot/exts/moderation/watchchannels/talentpool.py].  The API client, the
    Discord context and the [WatchChannel] base class are outside the
    sources: a callback is a tree of the calls it makes to them, each call
    answered by its value or by an exception, and [run] executes a tree
    against an environment that supplies the answers and records the trace.
    The role checks of the decorators run before a callback and are not part
    of it; [str] of an integer is [pretty]; JSON numbers with a fraction are
    left out of the values. *)

Module TalentPool.

(** ** Values of the site API *)

Set Warnings "-register-all".
Inductive json :=
| JNone
| JBool (b : bool)
| JInt (n : Z)
| JStr (s : string)
| JList (items : list json)
| JDict (fields : gmap string json).
Set Warnings "register-all".

(** The exceptions a callback meets: the built-in ones of the first part,
    [IndexError], [AttributeError], the [ResponseCodeError] of the API client
    with the status of its response, and whatever else a call outside this
    module raises. *)
Inductive pyexc :=
| Builtin (e : exn)
| IndexError
| AttributeError (name : string)
| ResponseCodeError (status : Z)
| External (name : string).

Inductive outcome (A : Type) :=
| Returned (a : A)
| Raised (e : pyexc).
Arguments Returned {A} a.
Arguments Raised {A} e.

(** A [string] holds the UTF-8 encoding of a Python string: a byte
    [10xxxxxx] continues the code point that the byte before it began or
    continued. *)
Definition is_continuation (c : Ascii.ascii) : bool :=
  (128 <=? Ascii.nat_of_ascii c)%nat && (Ascii.nat_of_ascii c <? 192)%nat.

(** The continuation bytes that wait for their first byte, and the code
    points read, in a suffix of the string. *)
Fixpoint code_points_from (s : string) : string * list string :=
  match s with
  | EmptyString => (EmptyString, [])
  | String c s' =>
      let '(pending, read) := code_points_from s' in
      if is_continuation c then (String c pending, read)
      else (EmptyString, String c pending :: read)
  end.

(** The characters of a Python string, each as a string. *)
Definition code_points (s : string) : list string :=
  let '(pending, read) := code_points_from s in
  match pending with
  | EmptyString => read
  | String _ _ => pending :: read
  end.

(** [bool(v)] *)
Definition json_bool (v : json) : bool :=
  match v with
  | JNone => false
  | JBool b => b
  | JInt n => negb (n =? 0)%Z
  | JStr s => negb (String.eqb s "")
  | JList items => match items with [] => false | _ :: _ => true end
  | JDict fields => negb (Nat.eqb (size fields) 0)
  end.

(** [v[key]] for a string key; the message of a [TypeError] is not
    modelled. *)
Definition getitem_str (v : json) (key : string) : outcome json :=
  match v with
  | JDict fields =>
      match fields !! key with
      | Some x => Returned x
      | None => Raised (Builtin (KeyError key))
      end
  | _ => Raised (Builtin (TypeError "subscript"))
  end.

(** [v[0]] *)
Definition getitem_first (v : json) : outcome json :=
  match v with
  | JList items =>
      match items with
      | x :: _ => Returned x
      | [] => Raised IndexError
      end
  | JStr s =>
      match code_points s with
      | c :: _ => Returned (JStr c)
      | [] => Raised IndexError
      end
  | JDict _ => Raised (Builtin (KeyError "0"))
  | _ => Raised (Builtin (TypeError "subscript"))
  end.

(** [v.get(key, fallback)] *)
Definition dict_get (v : json) (key : string) (fallback : json) : outcome json :=
  match v with
  | JDict fields => Returned (default fallback (fields !! key))
  | _ => Raised (AttributeError "get")
  end.

(** [len(v)]: the number of elements of a list, of keys of a dictionary,
    of characters of a string. *)
Definition json_len (v : json) : outcome nat :=
  match v with
  | JList items => Returned (length items)
  | JStr s => Returned (length (code_points s))
  | JDict fields => Returned (size fields)
  | _ => Raised (Builtin (TypeError "len"))
  end.

(** [iter(v)]: the elements a [for] visits (the keys of a dictionary come
    in the order of the map, not in the order of insertion). *)
Definition json_iter (v : json) : outcome (list json) :=
  match v with
  | JList items => Returned items
  | JStr s => Returned (JStr <$> code_points s)
  | JDict fields => Returned (JStr <$> (map_to_list fields).*1)
  | _ => Raised (Builtin (TypeError "iter"))
  end.

(** [v == n] for an integer [n]. *)
Definition json_eq_int (v : json) (n : Z) : bool :=
  match v with
  | JInt m => (m =? n)%Z
  | JBool b => ((if b then 1 else 0) =? n)%Z
  | _ => false
  end.

(** ** Users, addresses, log records *)

(** A [User] or a [Member]: [member_roles] is [None] for a plain [User],
    and holds the ids of the roles of a [Member]; [user_str] is
    [str(user)]. *)
Record user := {
  user_id : Z;
  user_str : string;
  user_bot : bool;
  member_roles : option (list Z);
}.

(** [self.api_endpoint] and [f"{self.api_endpoint}/{id}"]. *)
Inductive api_url :=
| Nominations
| Nomination (id : json).

(** The records handed to the loggers. *)
Inductive log_record :=
| DebugNoActiveNomination (user_id : Z)
| InfoEndingNomination (user_id : Z) (reason : string)
| TraceNomination404 (nomination_id : Z)
| TraceChangingReason (nomination_id : Z) (actor : string) (reason : string)
| TraceChangingEndReason (nomination_id : Z) (reason : string).

(** ** Calls, programs and runs *)

Inductive call :=
| ApiGet (url : api_url) (params : gmap string string)
| ApiPatch (url : api_url) (body : gmap string json)
| SessionPost (body : gmap string json)
| RaiseForStatus (status : Z)
| Send (text : string)
| FetchUserCache
| RemoveUser (user_id : Z)
| SetWatchedUser (user_id : Z) (data : json).

(** What a call gives back.  [SessionPost] stands for
    [session.post(url, json=body, raise_for_status=False)] together with
    [resp.json()]: it gives the status and the decoded body. *)
Definition answer (c : call) : Type :=
  match c with
  | ApiGet _ _ => json
  | ApiPatch _ _ => json
  | SessionPost _ => (Z * json)%type
  | RaiseForStatus _ => unit
  | Send _ => unit
  | FetchUserCache => bool
  | RemoveUser _ => unit
  | SetWatchedUser _ _ => unit
  end.

Inductive prog (A : Type) :=
| Ret (a : A)
| Throw (e : pyexc)
| Log (r : log_record) (k : prog A)
| Call (c : call) (k : outcome (answer c) → prog A).
Arguments Ret {A} a.
Arguments Throw {A} e.
Arguments Log {A} r k.
Arguments Call {A} c k.

Fixpoint bind {A B} (p : prog A) (f : A → prog B) : prog B :=
  match p with
  | Ret a => f a
  | Throw e => Throw e
  | Log r k => Log r (bind k f)
  | Call c k => Call c (λ o, bind (k o) f)
  end.

#[global] Instance prog_ret : MRet prog := λ A a, Ret a.
#[global] Instance prog_bind : MBind prog := λ A B f p, bind p f.

(** [await c]: the value of the call, or its exception. *)
Definition call_ (c : call) : prog (answer c) :=
  Call c (λ o, match o with
               | Returned a => Ret a
               | Raised e => Throw e
               end).

Definition api_get (url : api_url) (params : gmap string string) : prog json :=
  call_ (ApiGet url params).

Definition api_patch (url : api_url) (body : gmap string json) : prog json :=
  call_ (ApiPatch url body).

Definition session_post (body : gmap string json) : prog (Z * json) :=
  call_ (SessionPost body).

Definition raise_for_status (status : Z) : prog unit := call_ (RaiseForStatus status).

Definition send (text : string) : prog unit := call_ (Send text).

Definition fetch_user_cache : prog bool := call_ FetchUserCache.

Definition remove_user (user_id : Z) : prog unit := call_ (RemoveUser user_id).

Definition set_watched_user (user_id : Z) (data : json) : prog unit :=
  call_ (SetWatchedUser user_id data).

(** A computation of the interpreter itself. *)
Definition lift_outcome {A} (o : outcome A) : prog A :=
  match o with
  | Returned a => Ret a
  | Raised e => Throw e
  end.

(** [try: p except ...: handler]; the handler answers [None] for an
    exception that its [except] clause does not match. *)
Fixpoint try_except {A} (p : prog A) (handler : pyexc → option (prog A)) : prog A :=
  match p with
  | Ret a => Ret a
  | Throw e => match handler e with
               | Some recovery => recovery
               | None => Throw e
               end
  | Log r k => Log r (try_except k handler)
  | Call c k => Call c (λ o, try_except (k o) handler)
  end.

Inductive event :=
| Called (c : call) (o : outcome (answer c))
| Logged (r : log_record).

(** The environment answers a call, knowing what happened before. *)
Definition environment : Type := ∀ c : call, list event → outcome (answer c).

Fixpoint run {A} (env : environment) (p : prog A) (trace : list event)
  : outcome A * list event :=
  match p with
  | Ret a => (Returned a, trace)
  | Throw e => (Raised e, trace)
  | Log r k => run env k (trace ++ [Logged r])
  | Call c k => let o := env c trace in run env (k o) (trace ++ [Called c o])
  end.

(** The calls of a trace, and those that returned. *)
Definition calls (trace : list event) : list call :=
  omap (λ ev, match ev with Called c _ => Some c | Logged _ => None end) trace.

Definition returned_calls (trace : list event) : list call :=
  omap (λ ev, match ev with
              | Called c (Returned _) => Some c
              | _ => None
              end) trace.

(** The messages handed to [ctx.send]. *)
Definition sent (trace : list event) : list string :=
  omap (λ ev, match ev with Called (Send text) _ => Some text | _ => None end) trace.

(** ** The cog *)

(** [api_default_params], as [__init__] passes it to the base class. *)
Definition api_default_params : gmap string string :=
  {[ "active" := "true"; "ordering" := "-inserted_at" ]}.

(** [ChainMap(first, second)], read as a mapping. *)
Definition ChainMap (first second : gmap string string) : gmap string string :=
  first ∪ second.

Definition newline : string := String (Ascii.ascii_of_nat 10) "".

Section Cog.

(** [STAFF_ROLES] comes from [bot/constants.py]. *)
Variable STAFF_ROLES : list Z.

(** [isinstance(user, Member) and any(role.id in STAFF_ROLES for role in user.roles)] *)
Definition is_staff_member (u : user) : bool :=
  match member_roles u with
  | Some roles => existsb (λ role_id, bool_decide (role_id ∈ STAFF_ROLES)) roles
  | None => false
  end.

Definition unwatch (user_id : Z) (reason : string) : prog bool :=
  active_nomination ←
    api_get Nominations (ChainMap {[ "user__id" := pretty user_id ]} api_default_params);
  if negb (json_bool active_nomination) return prog bool then
    Log (DebugNoActiveNomination user_id) (Ret false)
  else
    Log (InfoEndingNomination user_id reason)
      (nomination ← lift_outcome (getitem_first active_nomination);
       nomination_id ← lift_outcome (getitem_str nomination "id");
       _ ← api_patch (Nomination nomination_id)
             {[ "end_reason" := JStr reason; "active" := JBool false ]};
       _ ← remove_user user_id;
       Ret true).

Definition on_member_ban (u : user) : prog unit :=
  _ ← unwatch (user_id u) "User was banned.";
  Ret tt.


(** [await self.bot.api_client.get(f"{self.api_endpoint}/{nomination_id}")]
    inside the [try] of the two edit commands: [None] stands for the
    [return] of the handler. *)
Definition get_nomination (nomination_id : Z) : prog (option json) :=
  try_except
    (nomination ← api_get (Nomination (JInt nomination_id)) ∅;
     Ret (Some nomination))
    (λ e, match e with
          | ResponseCodeError status =>
              Some (if (status =? 404)%Z
                    then Log (TraceNomination404 nomination_id)
                           (_ ← send (":x: Can't find a nomination with id `"
                                      +:+ pretty nomination_id +:+ "`");
                            Ret None)
                    else Throw e)
          | _ => None
          end).

(** [any(entry["actor"] == actor.id for entry in entries)] *)
Fixpoint any_actor (entries : list json) (actor_id : Z) : outcome bool :=
  match entries with
  | [] => Returned false
  | entry :: entries' =>
      match getitem_str entry "actor" with
      | Raised e => Raised e
      | Returned entry_actor =>
          if json_eq_int entry_actor actor_id then Returned true
          else any_actor entries' actor_id
      end
  end.

Definition edit_reason_command (nomination_id : Z) (actor : user) (reason : string)
  : prog unit :=
  found ← get_nomination nomination_id;
  match (found : option json) with
  | None => Ret tt
  | Some nomination =>
      active ← lift_outcome (getitem_str nomination "active");
      if negb (json_bool active) return prog unit
      then send ":x: Can't edit the reason of an inactive nomination."
      else
        entries_value ← lift_outcome (getitem_str nomination "entries");
        entries ← lift_outcome (json_iter entries_value);
        has_entry ← lift_outcome (any_actor entries (user_id actor));
        if negb has_entry return prog unit
        then send (":x: " +:+ user_str actor +:+ " doesn't have an entry in this nomination.")
        else
          Log (TraceChangingReason nomination_id (user_str actor) reason)
            (_ ← api_patch (Nomination (JInt nomination_id))
                   {[ "actor" := JInt (user_id actor); "reason" := JStr reason ]};
             _ ← fetch_user_cache;
             send ":white_check_mark: Successfully updated nomination reason.")
  end.

Definition edit_end_reason_command (nomination_id : Z) (reason : string) : prog unit :=
  found ← get_nomination nomination_id;
  match (found : option json) with
  | None => Ret tt
  | Some nomination =>
      active ← lift_outcome (getitem_str nomination "active");
      if json_bool active return prog unit
      then send ":x: Can't edit the end reason of an active nomination."
      else
        Log (TraceChangingEndReason nomination_id reason)
          (_ ← api_patch (Nomination (JInt nomination_id))
                 {[ "end_reason" := JStr reason ]};
           _ ← fetch_user_cache;
           send ":white_check_mark: Updated the end reason of the nomination!")
  end.

(** The body sent by [watch_command], and the text of its last message. *)
Definition nomination_body (author u : user) (reason : string) : gmap string json :=
  {[ "actor" := JInt (user_id author); "reason" := JStr reason;
     "user" := JInt (user_id u) ]}.

Definition history_params (u : user) : gmap string string :=
  {[ "user__id" := pretty (user_id u); "active" := "false";
     "ordering" := "-inserted_at" ]}.

Definition watch_command (author u : user) (reason : string) : prog unit :=
  if user_bot u then
    send (":x: I'm sorry " +:+ user_str author
          +:+ ", I'm afraid I can't do that. I only watch humans.")
  else if is_staff_member u then
    send ":x: Nominating staff members, eh? Here's a cookie :cookie:"
  else
    cache_updated ← fetch_user_cache;
    if negb cache_updated return prog unit then
      send (":x: Failed to update the user cache; can't add " +:+ user_str u)
    else
      '(status, response_data) ← session_post (nomination_body author u reason);
      if (status =? 400)%Z return prog unit then
        user_error ← lift_outcome (dict_get response_data "user" (JBool false));
        if json_bool user_error return prog unit then
          send ":x: The specified user can't be found in the database tables"
        else
          actor_error ← lift_outcome (dict_get response_data "actor" (JBool false));
          if json_bool actor_error return prog unit then
            send ":x: You have already nominated this user"
          else Ret tt
      else
        _ ← raise_for_status status;
        _ ← set_watched_user (user_id u) response_data;
        let msg := ":white_check_mark: The nomination for " +:+ user_str u
                   +:+ " has been added to the talent pool" in
        history ← api_get Nominations (history_params u);
        if json_bool history return prog unit then
          count ← lift_outcome (json_len history);
          send (msg +:+ newline +:+ newline +:+ "(" +:+ pretty count
                +:+ " previous nominations in total)")
        else send msg.

End Cog.

(** ** A sample site *)

(** The site has one active nomination, of user 7; every call succeeds. *)
Definition sample_nomination : json :=
  JDict {[ "id" := JInt 3; "active" := JBool true;
           "entries" := JList [JDict {[ "actor" := JInt 11; "reason" := JStr "helpful" ]}] ]}.

Definition sample_site : environment :=
  λ c _, match c return outcome (answer c) with
         | ApiGet Nominations _ => Returned (JList [sample_nomination])
         | ApiGet (Nomination _) _ => Returned sample_nomination
         | ApiPatch _ _ => Returned JNone
         | SessionPost _ => Returned (201%Z, sample_nomination)
         | RaiseForStatus _ => Returned tt
         | Send _ => Returned tt
         | FetchUserCache => Returned true
         | RemoveUser _ => Returned tt
         | SetWatchedUser _ _ => Returned tt
         end.

(** A site whose API knows no nomination: lists are empty, a single
    nomination is answered by a 404. *)
Definition empty_site : environment :=
  λ c _, match c return outcome (answer c) with
         | ApiGet Nominations _ => Returned (JList [])
         | ApiGet (Nomination _) _ => Raised (ResponseCodeError 404)
         | ApiPatch _ _ => Raised (ResponseCodeError 404)
         | SessionPost _ => Returned (400%Z, JDict ∅)
         | RaiseForStatus _ => Returned tt
         | Send _ => Returned tt
         | FetchUserCache => Returned true
         | RemoveUser _ => Returned tt
         | SetWatchedUser _ _ => Returned tt
         end.

(** A site whose nominations have all ended. *)
Definition ended_nomination : json :=
  JDict {[ "id" := JInt 3; "active" := JBool false;
           "entries" := JList [JDict {[ "actor" := JInt 11; "reason" := JStr "helpful" ]}] ]}.

Definition archive_site : environment :=
  λ c _, match c return outcome (answer c) with
         | ApiGet Nominations _ => Returned (JList [])
         | ApiGet (Nomination _) _ => Returned ended_nomination
         | ApiPatch _ _ => Returned JNone
         | SessionPost _ => Returned (201%Z, ended_nomination)
         | RaiseForStatus _ => Returned tt
         | Send _ => Returned tt
         | FetchUserCache => Returned true
         | RemoveUser _ => Returned tt
         | SetWatchedUser _ _ => Returned tt
         end.

Definition nominee : user :=
  {| user_id := 7; user_str := "nominee#0007"; user_bot := false; member_roles := Some [20%Z] |}.

Definition nominator : user :=
  {| user_id := 11; user_str := "helper#0011"; user_bot := false; member_roles := Some [30%Z] |}.

End TalentPool.

(** * Properties *)

(** ** The relevance resolver *)

Section Resolver.

Context {FilterContext ActionSettings : Type}.

Implicit Types (ctx : FilterContext) (defaults : ValidationSettings FilterContext).
Implicit Types (filters relevant_filters : list (Filter FilterContext ActionSettings)).
Implicit Types (f : Filter FilterContext ActionSettings).

Lemma set_bool_empty (s : gset string) : negb (set_bool s) = bool_decide (s = ∅).
Proof. unfold set_bool. by rewrite negb_involutive. Qed.

(** One iteration appends the filter or leaves the list alone. *)
Lemma filter_list_result_body_selects ctx failed_by_default relevant_filters
      (filter_ : Filter FilterContext ActionSettings) :
  filter_list_result_body ctx failed_by_default
    (negb (set_bool failed_by_default)) relevant_filters filter_
  = relevant_filters ++ (if selects ctx failed_by_default filter_ then [filter_] else []).
Proof.
  unfold filter_list_result_body, selects.
  destruct (validations filter_) as [v|]; cbn [validations_bool negb].
  - destruct (evaluate v ctx) as [passed failed]; cbn [fst snd].
    rewrite set_bool_empty.
    destruct (bool_decide (failed = ∅)), (bool_decide (failed_by_default ⊂ passed)),
      (triggered_on filter_ ctx); simpl; by rewrite ?app_nil_r.
  - rewrite set_bool_empty.
    destruct (bool_decide (failed_by_default = ∅)), (triggered_on filter_ ctx);
      simpl; by rewrite ?app_nil_r.
Qed.

Lemma filter_list_result_loop ctx failed_by_default filters relevant_filters :
  fold_left (filter_list_result_body ctx failed_by_default
               (negb (set_bool failed_by_default))) filters relevant_filters
  = relevant_filters
    ++ filter (λ f, selects ctx failed_by_default f = true) filters.
Proof.
  revert relevant_filters.
  induction filters as [|f filters IH]; intros relevant_filters; simpl.
  - by rewrite app_nil_r.
  - rewrite IH, filter_list_result_body_selects, filter_cons.
    destruct (selects ctx failed_by_default f) eqn:Hsel.
    + rewrite decide_True by done. by rewrite <- app_assoc.
    + rewrite decide_False by done. by rewrite app_nil_r.
Qed.

(** The resolver keeps, in their order, the filters the loop body selects. *)
Lemma filter_list_result_filter ctx filters defaults :
  filter_list_result ctx filters defaults
  = filter (λ f, selects ctx (evaluate defaults ctx).2 f = true) filters.
Proof.
  unfold filter_list_result.
  destruct (evaluate defaults ctx) as [passed_by_default failed_by_default]; simpl.
  apply filter_list_result_loop.
Qed.

Lemma elem_of_filter_list_result ctx filters defaults f :
  f ∈ filter_list_result ctx filters defaults
  ↔ f ∈ filters ∧ selects ctx (evaluate defaults ctx).2 f = true.
Proof. rewrite filter_list_result_filter, list_elem_of_filter. tauto. Qed.

(** What the code asks of a filter with overrides: the failed defaults are
    a proper subset of its passed overrides. *)
Lemma selects_overrides ctx defaults f v :
  validations f = Some v →
  selects ctx (evaluate defaults ctx).2 f = true
  ↔ (evaluate v ctx).2 = ∅
    ∧ (evaluate defaults ctx).2 ⊂ (evaluate v ctx).1
    ∧ triggered_on f ctx = true.
Proof.
  intros Hv. unfold selects. rewrite Hv.
  rewrite !andb_true_iff, !bool_decide_eq_true. tauto.
Qed.

Lemma selects_no_overrides ctx defaults f :
  validations f = None →
  selects ctx (evaluate defaults ctx).2 f = true
  ↔ (evaluate defaults ctx).2 = ∅ ∧ triggered_on f ctx = true.
Proof.
  intros Hv. unfold selects. rewrite Hv.
  by rewrite andb_true_iff, bool_decide_eq_true.
Qed.

(** C3: a filter without validation overrides is in the result iff it is in
    the input, no default validation failed and its trigger predicate is
    true; and when some default validation failed, no filter that lacks
    matching overrides is in the result, whatever its trigger says. *)
Theorem filter_list_result_default_gate ctx filters defaults :
  (∀ f, validations f = None →
        (f ∈ filter_list_result ctx filters defaults
         ↔ f ∈ filters ∧ (evaluate defaults ctx).2 = ∅ ∧ triggered_on f ctx = true))
  ∧ ((evaluate defaults ctx).2 ≠ ∅ →
     ∀ f, lacks_matching_overrides ctx defaults f →
          f ∉ filter_list_result ctx filters defaults).
Proof.
  split.
  - intros f Hv. by rewrite elem_of_filter_list_result, selects_no_overrides.
  - intros Hfailed f Hlacks Hin.
    apply elem_of_filter_list_result in Hin as [_ Hsel].
    unfold lacks_matching_overrides in Hlacks.
    destruct (validations f) as [v|] eqn:Hv.
    + apply (selects_overrides _ _ _ _ Hv) in Hsel as (_ & [Hsub _] & _).
      by apply Hlacks.
    + apply (selects_no_overrides _ _ _ Hv) in Hsel as [Hempty _].
      by apply Hfailed.
Qed.

(** C4: every filter of the result is a filter of the input; when the
    input filters are distinct, so are those of the result; and a
    permutation of the input gives a result with the same filters. *)
Theorem filter_list_result_set_semantics ctx filters filters' defaults :
  NoDup filters →
  filters ≡ₚ filters' →
  (∀ f, f ∈ filter_list_result ctx filters defaults → f ∈ filters)
  ∧ NoDup (filter_list_result ctx filters defaults)
  ∧ (∀ f, f ∈ filter_list_result ctx filters defaults
          ↔ f ∈ filter_list_result ctx filters' defaults).
Proof.
  intros Hdistinct Hperm. split; [|split].
  - intros f Hin. by apply elem_of_filter_list_result in Hin as [? _].
  - rewrite filter_list_result_filter. by apply NoDup_filter.
  - intros f. rewrite !elem_of_filter_list_result. by rewrite Hperm.
Qed.

(** The loop in the monad leaves the store as it found it. *)
Lemma for_each_pure {S X A} (g : A → X → A) (xs : list X) (acc : A) (s : S) :
  for_each (λ a x, mret (g a x)) xs acc s = (Ok (fold_left g xs acc), s).
Proof.
  revert acc. induction xs as [|x xs IH]; intros acc; [done|].
  simpl. unfold mbind, M_bind, mret, M_ret. apply IH.
Qed.

Lemma filter_list_result_on_store_run ctx (store : Store FilterContext ActionSettings) :
  filter_list_result_on_store ctx store
  = (Ok (filter_list_result ctx (st_filters store) (st_defaults store)), store).
Proof.
  unfold filter_list_result_on_store, filter_list_result.
  unfold mbind, M_bind, gets; lazy beta iota zeta.
  unfold mret at 1 2, M_ret at 1 2; lazy beta iota zeta.
  destruct (evaluate (st_defaults store) ctx) as [passed failed]; lazy beta iota zeta.
  apply (for_each_pure (filter_list_result_body ctx failed (negb (set_bool failed)))).
Qed.

(** C9: with validation and trigger predicates that are functions of the
    context, the resolver returns its result and leaves the caller's list
    of filters, each filter in it and the defaults as they were; a second
    evaluation, on the store the first one left, returns the same result. *)
Theorem filter_list_result_reads_only ctx (store : Store FilterContext ActionSettings) :
  let first := filter_list_result_on_store ctx store in
  let second := filter_list_result_on_store ctx first.2 in
  first.1 = Ok (filter_list_result ctx (st_filters store) (st_defaults store))
  ∧ first.2 = store
  ∧ st_filters first.2 = st_filters store
  ∧ st_defaults first.2 = st_defaults store
  ∧ second = first.
Proof.
  intros first second. subst second first.
  rewrite filter_list_result_on_store_run. cbn [fst snd].
  by rewrite filter_list_result_on_store_run.
Qed.

End Resolver.

(** ** The resolver on the scenario of §8 *)

(** Closes a decidable goal by evaluation. *)
Ltac by_evaluation := refine (bool_decide_unpack _ _); vm_compute; exact I.

(** C1: the claim is that a filter with overrides is in the result iff none
    of its overrides failed, every failed default is among its passed
    overrides and its trigger is true.  Here [F2] passes exactly the rule
    that failed by default and its trigger is true, so it is relevant in the
    words of the docstring, and the code leaves it out: it asks for a proper
    subset. *)
Theorem filter_list_result_exact_reclaim_excluded :
  relevant_by_spec Scenario.ctx Scenario.default_validations Scenario.F2
  ∧ triggered_on Scenario.F2 Scenario.ctx = true
  ∧ (evaluate Scenario.default_validations Scenario.ctx).2 = {[ "public_channel" ]}
  ∧ (∃ v, validations Scenario.F2 = Some v
          ∧ (evaluate v Scenario.ctx).1 = {[ "public_channel" ]})
  ∧ filter_list_result Scenario.ctx [Scenario.F2] Scenario.default_validations = [].
Proof.
  split; [|split; [|split; [|split]]].
  - unfold relevant_by_spec. cbn [validations Scenario.F2].
    split; by_evaluation.
  - reflexivity.
  - by_evaluation.
  - eexists. split; [reflexivity | by_evaluation].
  - vm_compute. reflexivity.
Qed.

(** C2: the claim is that a rule set that is present and empty gives the
    same result as no rule set.  With defaults that all pass, the filter
    without overrides is in the result, and the same filter with a present
    and empty rule set is not. *)
Theorem filter_list_result_no_entries_differs :
  let without := with_validations None Scenario.F1 in
  let with_empty := with_validations (Some Scenario.no_entries) Scenario.F1 in
  (evaluate Scenario.defaults_pass Scenario.ctx).2 = ∅
  ∧ filter_list_result Scenario.ctx [without] Scenario.defaults_pass = [without]
  ∧ filter_list_result Scenario.ctx [with_empty] Scenario.defaults_pass = [].
Proof.
  split; [|split].
  - by_evaluation.
  - vm_compute. reflexivity.
  - vm_compute. reflexivity.
Qed.

(** An instance of C3: with passing defaults [F1] is in the result, and with
    the failing default [F3], whose override has another name, is not. *)
Lemma filter_list_result_default_gate_witness :
  Scenario.F1 ∈ filter_list_result Scenario.ctx [Scenario.F1; Scenario.F2]
                  Scenario.defaults_pass
  ∧ Scenario.F3 ∉ filter_list_result Scenario.ctx
                    [Scenario.F1; Scenario.F2; Scenario.F3]
                    Scenario.default_validations.
Proof.
  split.
  - apply (proj1 (filter_list_result_default_gate Scenario.ctx
                    [Scenario.F1; Scenario.F2] Scenario.defaults_pass)
                 Scenario.F1 eq_refl).
    split; [apply list_elem_of_here | split; [by_evaluation | reflexivity]].
  - apply (proj2 (filter_list_result_default_gate Scenario.ctx
                    [Scenario.F1; Scenario.F2; Scenario.F3]
                    Scenario.default_validations)).
    + by_evaluation.
    + unfold lacks_matching_overrides. cbn [validations Scenario.F3].
      by_evaluation.
Defined.

(** An instance of C4 on three distinct filters and a rotation of them. *)
Lemma filter_list_result_set_semantics_witness :
  let filters := [Scenario.F1; Scenario.F2; Scenario.F4] in
  let filters' := [Scenario.F4; Scenario.F1; Scenario.F2] in
  NoDup filters
  ∧ filters ≡ₚ filters'
  ∧ (∀ f, f ∈ filter_list_result Scenario.ctx filters Scenario.default_validations
          → f ∈ filters)
  ∧ NoDup (filter_list_result Scenario.ctx filters Scenario.default_validations)
  ∧ (∀ f, f ∈ filter_list_result Scenario.ctx filters Scenario.default_validations
          ↔ f ∈ filter_list_result Scenario.ctx filters' Scenario.default_validations).
Proof.
  intros filters filters'.
  assert (Hdistinct : NoDup filters).
  { repeat apply NoDup_cons_2; try apply NoDup_nil_2;
      rewrite ?elem_of_cons, elem_of_nil; intros H;
      repeat destruct H as [H|H]; try done; discriminate H. }
  assert (Hperm : filters ≡ₚ filters').
  { apply (Permutation_app_comm [Scenario.F1; Scenario.F2] [Scenario.F4]). }
  split; [exact Hdistinct | split; [exact Hperm |]].
  exact (filter_list_result_set_semantics Scenario.ctx filters filters'
           Scenario.default_validations Hdistinct Hperm).
Defined.

(** ** List-type resolution *)

Section ConvertProperties.

Import ListTypeConverter.

Variable past_tense : string → string.

Lemma row_matches_spec argument (row : gset string) :
  row_matches past_tense argument row = true
  ↔ argument ∈ row ∨ ∃ a, a ∈ row ∧ argument = past_tense a.
Proof.
  unfold row_matches. rewrite orb_true_iff, !bool_decide_eq_true.
  rewrite list_elem_of_fmap. setoid_rewrite elem_of_elements.
  split; (intros [H|(a & H1 & H2)]; [by left | right; by exists a]).
Qed.

Lemma row_matches_tokens argument (row : gset string) :
  row_matches past_tense argument row = true ↔ argument ∈ tokens past_tense row.
Proof.
  rewrite row_matches_spec. unfold tokens.
  rewrite elem_of_app, list_elem_of_fmap, elem_of_elements.
  setoid_rewrite elem_of_elements.
  split; (intros [H|(a & H1 & H2)]; [by left | right; by exists a]).
Qed.

Lemma elem_of_aliases t (row : gset string) :
  (t, row) ∈ aliases
  ↔ (t = DENY ∧ row = {[ "deny"; "blocklist"; "blacklist"; "denylist"; "bl"; "dl" ]})
    ∨ (t = ALLOW ∧ row = {[ "allow"; "allowlist"; "whitelist"; "al"; "wl" ]}).
Proof.
  unfold aliases. split.
  - intros Hin. apply elem_of_cons in Hin as [Heq|Hin].
    + injection Heq as -> ->. left. split; reflexivity.
    + apply elem_of_cons in Hin as [Heq|Hin].
      * injection Heq as -> ->. right. split; reflexivity.
      * apply elem_of_nil in Hin. destruct Hin.
  - intros [[-> ->]|[-> ->]].
    + apply list_elem_of_here.
    + apply list_elem_of_further, list_elem_of_here.
Qed.

Lemma designates_row t argument :
  designates past_tense t argument
  ↔ ∃ row, (t, row) ∈ aliases ∧ row_matches past_tense argument row = true.
Proof. unfold designates. by setoid_rewrite row_matches_spec. Qed.

(** The loop returns the member of the first row that matches. *)
Lemma convert_loop_Ok rows argument t :
  convert_loop past_tense rows argument = Ok t
  → ∃ row, (t, row) ∈ rows ∧ row_matches past_tense argument row = true.
Proof.
  induction rows as [|[t' row] rows IH]; simpl; [done|].
  destruct (row_matches past_tense argument row) eqn:Hrow.
  - intros [= ->]. exists row. split; [apply list_elem_of_here | done].
  - intros (row' & Hin & Hm)%IH. exists row'. split; [by apply list_elem_of_further | done].
Qed.

Lemma convert_loop_Raise rows argument e :
  convert_loop past_tense rows argument = Raise e
  ↔ e = BadArgument argument
    ∧ ∀ t row, (t, row) ∈ rows → row_matches past_tense argument row = false.
Proof.
  induction rows as [|[t' row] rows IH]; simpl.
  - split.
    + intros [= <-]. split; [done|]. intros t row Hin. by apply elem_of_nil in Hin.
    + by intros [-> _].
  - destruct (row_matches past_tense argument row) eqn:Hrow.
    + split; [done|]. intros [_ Hall].
      specialize (Hall t' row (list_elem_of_here _ _)). congruence.
    + rewrite IH. split; intros [-> Hall]; (split; [done|]).
      * intros t r [[= -> ->]|Hin]%elem_of_cons; [done | by eapply Hall].
      * intros t r Hin. eapply Hall. by apply list_elem_of_further.
Qed.

Lemma rows_apart_spec argument :
  rows_apart past_tense = true →
  row_matches past_tense argument {[ "allow"; "allowlist"; "whitelist"; "al"; "wl" ]} = true →
  row_matches past_tense argument
    {[ "deny"; "blocklist"; "blacklist"; "denylist"; "bl"; "dl" ]} = false.
Proof.
  unfold rows_apart. rewrite forallb_forall. intros Hall Hm.
  apply row_matches_tokens, list_elem_of_In in Hm.
  apply Hall in Hm. by apply negb_true_iff in Hm.
Qed.

(** The first row decides for its tokens, whatever [past_tense] is. *)
Lemma convert_DENY argument :
  designates past_tense DENY argument → convert past_tense argument = Ok DENY.
Proof.
  unfold convert. intros (row & Hin & Hm)%designates_row.
  apply elem_of_aliases in Hin as [[_ ->]|[Hne _]]; [|discriminate Hne].
  unfold aliases. cbn [convert_loop]. rewrite Hm. reflexivity.
Qed.

(** C6: a token that is a DENY alias or the past tense of one resolves to
    DENY, a token that is an ALLOW alias or the past tense of one resolves
    to ALLOW, and every other token raises the error that carries it; the
    converter returns a member in no other case.  The ALLOW part needs that
    [past_tense] makes no ALLOW token match the DENY row, which is tried
    first. *)
Theorem convert_alias_totality argument :
  rows_apart past_tense = true →
  (designates past_tense DENY argument → convert past_tense argument = Ok DENY)
  ∧ (designates past_tense ALLOW argument → convert past_tense argument = Ok ALLOW)
  ∧ (¬ designates past_tense DENY argument →
     ¬ designates past_tense ALLOW argument →
     convert past_tense argument = Raise (BadArgument argument))
  ∧ (∀ t, convert past_tense argument = Ok t → designates past_tense t argument).
Proof.
  intros Hapart. unfold convert.
  split; [|split; [|split]].
  - apply convert_DENY.
  - intros (row & Hin & Hm)%designates_row.
    apply elem_of_aliases in Hin as [[Hne _]|[_ ->]]; [discriminate Hne|].
    unfold aliases. cbn [convert_loop].
    rewrite (rows_apart_spec _ Hapart Hm), Hm. reflexivity.
  - intros Hdeny Hallow. apply convert_loop_Raise. split; [reflexivity|].
    intros t row Hin.
    destruct (row_matches past_tense argument row) eqn:Hm; [|reflexivity].
    destruct t; [destruct Hdeny | destruct Hallow];
      apply designates_row; exists row; split; assumption.
  - intros t Hconv. apply designates_row. apply convert_loop_Ok, Hconv.
Qed.

End ConvertProperties.

(** An instance of C6: with the regular past tense, "whitelisted" is the
    past tense of an ALLOW alias and resolves to ALLOW. *)
Lemma convert_alias_totality_witness :
  ListTypeConverter.rows_apart ListTypeConverter.past_tense_regular = true
  ∧ ListTypeConverter.convert ListTypeConverter.past_tense_regular "whitelisted" = Ok ALLOW.
Proof.
  split; [reflexivity|].
  apply (proj1 (proj2 (convert_alias_totality ListTypeConverter.past_tense_regular
                         "whitelisted" eq_refl))).
  apply designates_row. eexists. split.
  - apply list_elem_of_further, list_elem_of_here.
  - vm_compute. reflexivity.
Defined.

(** ** Construction *)

Section ConstructionProperties.

Context {FilterContext ActionSettings SettingsData FilterData : Type}.

Variable create_settings :
  SettingsData → result (option ActionSettings * option (ValidationSettings FilterContext)).

Implicit Types (w : World FilterContext ActionSettings FilterData).
Implicit Types (list_data : ListData SettingsData FilterData).
Implicit Types (payloads : list FilterData).
Implicit Types (filters : list (Filter FilterContext ActionSettings)).
Implicit Types (acts : option ActionSettings).

(** [add_list], one statement after the other. *)
Lemma add_list_run list_data w :
  add_list create_settings list_data w =
  match ld_settings list_data with
  | None => (Raise (KeyError "settings"), w)
  | Some settings_data =>
      match create_settings settings_data with
      | Raise e => (Raise e, w)
      | Ok (acts, vals) =>
          match ld_list_type list_data with
          | None => (Raise (KeyError "list_type"), w)
          | Some v =>
              match ListType_call v with
              | Raise e => (Raise e, w)
              | Ok list_type =>
                  let w1 := set_defaults list_type
                              {| d_actions := acts; d_validations := vals |} w in
                  match ld_filters list_data with
                  | None => (Raise (KeyError "filters"), w1)
                  | Some payloads =>
                      match for_each (add_list_body acts) payloads [] w1 with
                      | (Ok filters, w2) => (Ok tt, set_filter_lists list_type filters w2)
                      | (Raise e, w2) => (Raise e, w2)
                      end
                  end
              end
          end
      end
  end.
Proof.
  unfold add_list, mbind, M_bind, getitem, lift, modify, raise.
  destruct (ld_settings list_data) as [settings_data|]; [|reflexivity].
  unfold mret, M_ret.
  destruct (create_settings settings_data) as [[acts vals]|e]; [|reflexivity].
  destruct (ld_list_type list_data) as [v|]; [|reflexivity].
  destruct (ListType_call v) as [list_type|e]; [|reflexivity].
  destruct (ld_filters list_data) as [payloads|]; [|reflexivity].
  cbv zeta.
  destruct (for_each _ payloads [] _) as [[filters|e] w2]; reflexivity.
Qed.

(** One iteration of the loop, by the outcome of the constructor. *)
Lemma add_list_body_run acts filters filter_data w :
  add_list_body acts filters filter_data w =
  match filter_type (self w) filter_data acts with
  | Ok new_filter => (Ok (filters ++ [new_filter]), w)
  | Raise e => if is_TypeError e then (Ok filters, with_log w [e]) else (Raise e, w)
  end.
Proof.
  unfold add_list_body, try_except_TypeError, mbind, M_bind, gets, lift,
    log_warning, modify, mret, M_ret.
  destruct (filter_type (self w) filter_data acts) as [new_filter|e]; [reflexivity|].
  destruct (is_TypeError e); reflexivity.
Qed.

Lemma with_log_nil w : with_log w [] = w.
Proof. destruct w as [s l]. unfold with_log; simpl. by rewrite app_nil_r. Qed.

Lemma with_log_app w l1 l2 : with_log (with_log w l1) l2 = with_log w (l1 ++ l2).
Proof. unfold with_log; simpl. by rewrite app_assoc. Qed.

(** The loop never touches the filter list object itself. *)
Lemma add_list_loop_self acts payloads filters w :
  self (for_each (add_list_body acts) payloads filters w).2 = self w.
Proof.
  revert filters w. induction payloads as [|d payloads IH]; intros filters w; [done|].
  cbn [for_each]. unfold mbind, M_bind. rewrite add_list_body_run.
  destruct (filter_type (self w) d acts) as [new_filter|e]; [apply IH|].
  destruct (is_TypeError e); [|done].
  by rewrite IH.
Qed.

(** When every failing construction raises a [TypeError], the loop ends
    with the constructed filters and has logged the exceptions. *)
Lemma add_list_loop_tolerant acts payloads filters w :
  Forall (λ d, malformed (filter_type (self w)) acts d
               = raises_TypeError (filter_type (self w)) acts d) payloads →
  for_each (add_list_body acts) payloads filters w
  = (Ok (filters ++ constructed (filter_type (self w)) acts payloads),
     with_log w (logged (filter_type (self w)) acts payloads)).
Proof.
  intros Hall. revert filters w Hall.
  induction payloads as [|d payloads IH]; intros filters w Hall.
  - cbn. by rewrite app_nil_r, with_log_nil.
  - apply Forall_cons in Hall as [Hd Hall].
    cbn [for_each]. unfold mbind, M_bind. rewrite add_list_body_run.
    unfold malformed, raises_TypeError, constructed, logged in *. cbn [omap list_omap].
    destruct (filter_type (self w) d acts) as [new_filter|e].
    + rewrite IH by done. by rewrite <- app_assoc.
    + rewrite <- Hd. rewrite (IH filters (with_log w [e])) by done.
      cbn [self with_log]. by rewrite with_log_app.
Qed.

(** When some construction raises another exception, the loop raises the
    first such exception. *)
Lemma add_list_loop_raises acts payloads filters w d e :
  d ∈ payloads →
  filter_type (self w) d acts = Raise e →
  is_TypeError e = false →
  ∃ d' e', d' ∈ payloads
           ∧ filter_type (self w) d' acts = Raise e'
           ∧ is_TypeError e' = false
           ∧ (for_each (add_list_body acts) payloads filters w).1 = Raise e'.
Proof.
  intros Hin Hd He. revert filters w Hd.
  induction payloads as [|d0 payloads IH]; intros filters w Hd.
  - by apply elem_of_nil in Hin.
  - cbn [for_each]. unfold mbind, M_bind. rewrite add_list_body_run.
    destruct (filter_type (self w) d0 acts) as [new_filter|e0] eqn:Hd0.
    + apply elem_of_cons in Hin as [->|Hin]; [congruence|].
      destruct (IH Hin (filters ++ [new_filter]) w Hd) as (d' & e' & ? & ? & ? & ?).
      exists d', e'. split; [by apply list_elem_of_further | done].
    + destruct (is_TypeError e0) eqn:He0.
      * apply elem_of_cons in Hin as [->|Hin]; [congruence|].
        destruct (IH Hin filters (with_log w [e0]) Hd) as (d' & e' & ? & ? & ? & ?).
        exists d', e'. split; [by apply list_elem_of_further | done].
      * exists d0, e0. split; [apply list_elem_of_here | done].
Qed.

Lemma length_constructed (filter_type : FilterData → option ActionSettings
                                       → result (Filter FilterContext ActionSettings))
      acts payloads :
  length (constructed filter_type acts payloads)
  = length payloads - length (filter (λ d, malformed filter_type acts d = true) payloads).
Proof.
  assert (H : length (constructed filter_type acts payloads)
              + length (filter (λ d, malformed filter_type acts d = true) payloads)
              = length payloads); [|lia].
  induction payloads as [|d payloads IH]; [done|].
  unfold constructed in *. cbn [omap list_omap]. rewrite filter_cons.
  destruct (decide (malformed filter_type acts d = true)) as [Hm|Hm];
    unfold malformed in Hm;
    destruct (filter_type d acts) as [f|e]; try done; simpl; lia.
Qed.

Lemma elem_of_constructed (filter_type : FilterData → option ActionSettings
                                        → result (Filter FilterContext ActionSettings))
      acts payloads f :
  f ∈ constructed filter_type acts payloads
  ↔ ∃ d, d ∈ payloads ∧ filter_type d acts = Ok f.
Proof.
  unfold constructed. rewrite list_elem_of_omap. split.
  - intros (d & Hin & Hd). exists d. split; [done|].
    destruct (filter_type d acts); congruence.
  - intros (d & Hin & Hd). exists d. split; [done|]. by rewrite Hd.
Qed.

(** When the loop ends normally, its list is the constructed filters. *)
Lemma add_list_loop_Ok acts payloads filters w result_filters :
  (for_each (add_list_body acts) payloads filters w).1 = Ok result_filters →
  result_filters = filters ++ constructed (filter_type (self w)) acts payloads.
Proof.
  revert filters w. induction payloads as [|d payloads IH]; intros filters w.
  - cbn. intros [= <-]. by rewrite app_nil_r.
  - cbn [for_each]. unfold mbind, M_bind. rewrite add_list_body_run.
    unfold constructed in *. cbn [omap list_omap].
    destruct (filter_type (self w) d acts) as [new_filter|e].
    + intros ->%IH. by rewrite <- app_assoc.
    + destruct (is_TypeError e); [|done]. by intros ->%IH.
Qed.

(** A dictionary holds at most one entry under a key. *)
Lemma entries_for_le_1 {V} (list_type : ListType) (d : gmap ListType V) :
  (entries_for list_type d ≤ 1)%nat.
Proof.
  unfold entries_for.
  pose proof (NoDup_fst_map_to_list d) as Hnodup.
  induction (map_to_list d) as [|[k x] l IH]; [simpl; lia|].
  rewrite fmap_cons in Hnodup. apply NoDup_cons in Hnodup as [Hk Hnodup].
  rewrite filter_cons. destruct (decide ((k, x).1 = list_type)) as [Heq|Hne].
  - cbn [fst] in Heq. subst k.
    assert (Hnone : filter (λ kv : ListType * V, kv.1 = list_type) l = []).
    { destruct (filter (λ kv : ListType * V, kv.1 = list_type) l)
        as [|[k' x'] l'] eqn:Hf; [done|].
      assert (Hin : (k', x') ∈ filter (λ kv : ListType * V, kv.1 = list_type) l)
        by (rewrite Hf; apply list_elem_of_here).
      apply list_elem_of_filter in Hin as [Heq Hin]. cbn [fst] in Heq. subst k'.
      destruct Hk. apply list_elem_of_fmap. by exists (list_type, x'). }
    rewrite Hnone. simpl. lia.
  - by apply IH.
Qed.

Lemma entries_for_present {V} (list_type : ListType) (d : gmap ListType V) :
  is_Some (d !! list_type) → entries_for list_type d = 1.
Proof.
  intros [x Hx]. pose proof (entries_for_le_1 list_type d) as Hle.
  assert (0 < entries_for list_type d)%nat; [|lia].
  unfold entries_for.
  assert (Hin : (list_type, x) ∈ filter (λ kv : ListType * V, kv.1 = list_type)
                                    (map_to_list d)).
  { apply list_elem_of_filter. split; [done|]. by apply elem_of_map_to_list. }
  destruct (filter _ (map_to_list d)); [by apply elem_of_nil in Hin | simpl; lia].
Qed.

(** Every call keeps the filter class, and leaves no partition without
    defaults. *)
Lemma add_list_invariant list_data w :
  dom (filter_lists (self w)) ⊆ dom (defaults (self w)) →
  let after := (add_list create_settings list_data w).2 in
  filter_type (self after) = filter_type (self w)
  ∧ dom (filter_lists (self after)) ⊆ dom (defaults (self after)).
Proof.
  intros Hdom. cbv zeta. rewrite add_list_run.
  destruct (ld_settings list_data) as [settings_data|]; [|done].
  destruct (create_settings settings_data) as [[acts vals]|e]; [|done].
  destruct (ld_list_type list_data) as [v|]; [|done].
  destruct (ListType_call v) as [list_type|e]; [|done].
  cbv zeta.
  destruct (ld_filters list_data) as [payloads|].
  - pose proof (add_list_loop_self acts payloads []
                  (set_defaults list_type
                     {| d_actions := acts; d_validations := vals |} w)) as Hself.
    destruct (for_each _ payloads [] _) as [[filters|e] w2];
      cbn [fst snd] in *; unfold set_filter_lists; cbn [self filter_lists defaults
                                                         filter_type];
      rewrite Hself; cbn [set_defaults self filter_lists defaults filter_type];
      (split; [done|]); rewrite ?dom_insert_L;
      [apply union_mono_l, Hdom | by apply union_subseteq_r'].
  - cbn [snd set_defaults self filter_lists defaults filter_type].
    split; [done|]. rewrite dom_insert_L. by apply union_subseteq_r'.
Qed.

Lemma add_lists_invariant
      (filter_class : FilterData → option ActionSettings
                      → result (Filter FilterContext ActionSettings)) calls :
  let w := add_lists create_settings calls
             {| self := FilterList_init filter_class; log := [] |} in
  filter_type (self w) = filter_class
  ∧ dom (filter_lists (self w)) ⊆ dom (defaults (self w)).
Proof.
  cbv zeta. unfold add_lists.
  assert (Hgen : ∀ w0 : World FilterContext ActionSettings FilterData,
             filter_type (self w0) = filter_class →
             dom (filter_lists (self w0)) ⊆ dom (defaults (self w0)) →
             let w := fold_left (λ w list_data, (add_list create_settings list_data w).2)
                                calls w0 in
             filter_type (self w) = filter_class
             ∧ dom (filter_lists (self w)) ⊆ dom (defaults (self w))).
  { induction calls as [|list_data calls IH]; intros w0 Hft Hdom; [done|].
    cbn [fold_left].
    destruct (add_list_invariant list_data w0 Hdom) as [Hft' Hdom'].
    apply IH; [congruence | done]. }
  apply Hgen; [done|]. cbn [FilterList_init self filter_lists defaults].
  by rewrite !dom_empty_L.
Qed.

(** What a call that reaches the loop leaves behind. *)
Lemma add_list_after list_data w settings_data acts vals v list_type payloads :
  ld_settings list_data = Some settings_data →
  create_settings settings_data = Ok (acts, vals) →
  ld_list_type list_data = Some v →
  ListType_call v = Ok list_type →
  ld_filters list_data = Some payloads →
  let after := add_list create_settings list_data w in
  defaults (self after.2)
  = <[list_type := {| d_actions := acts; d_validations := vals |}]> (defaults (self w))
  ∧ (after.1 = Ok tt →
     filter_lists (self after.2)
     = <[list_type := constructed (filter_type (self w)) acts payloads]>
         (filter_lists (self w)))
  ∧ (after.1 ≠ Ok tt → filter_lists (self after.2) = filter_lists (self w)).
Proof.
  intros Hsd Hcs Hv Hlt Hp. cbv zeta.
  rewrite add_list_run, Hsd, Hcs, Hv, Hlt, Hp. cbv zeta.
  pose proof (add_list_loop_self acts payloads []
                (set_defaults list_type
                   {| d_actions := acts; d_validations := vals |} w)) as Hself.
  pose proof (add_list_loop_Ok acts payloads []
                (set_defaults list_type
                   {| d_actions := acts; d_validations := vals |} w)) as Hok.
  destruct (for_each _ payloads [] _) as [[filters|e] w2]; cbn [fst snd] in *.
  - unfold set_filter_lists. cbn [self filter_lists defaults]. rewrite Hself.
    cbn [set_defaults self filter_lists defaults].
    split; [done|]. split; [|done]. intros _.
    by rewrite (Hok filters eq_refl).
  - rewrite Hself. cbn [set_defaults self filter_lists defaults].
    split; [done|]. split; [done|]. done.
Qed.

(** C5 (amended): with a well-formed settings payload and N filter
    payloads of which M fail construction, each of them with a
    [TypeError], [add_list] returns normally and the partition holds
    exactly the N-M filters constructed from the other payloads, the M
    exceptions being logged; and when the parsing of the settings raises,
    [add_list] raises the same exception and leaves the filter list as it
    was, with no partition constructed. *)
Theorem add_list_partial_failure list_data w :
  (∀ settings_data acts vals v list_type payloads,
      ld_settings list_data = Some settings_data →
      create_settings settings_data = Ok (acts, vals) →
      ld_list_type list_data = Some v →
      ListType_call v = Ok list_type →
      ld_filters list_data = Some payloads →
      Forall (λ d, malformed (filter_type (self w)) acts d
                   = raises_TypeError (filter_type (self w)) acts d) payloads →
      let after := add_list create_settings list_data w in
      let partition := constructed (filter_type (self w)) acts payloads in
      after.1 = Ok tt
      ∧ filter_lists (self after.2) !! list_type = Some partition
      ∧ length partition
        = length payloads
          - length (filter (λ d, malformed (filter_type (self w)) acts d = true) payloads)
      ∧ (∀ f, f ∈ partition ↔ ∃ d, d ∈ payloads ∧ filter_type (self w) d acts = Ok f)
      ∧ log after.2 = log w ++ logged (filter_type (self w)) acts payloads)
  ∧ (∀ settings_data e,
      ld_settings list_data = Some settings_data →
      create_settings settings_data = Raise e →
      add_list create_settings list_data w = (Raise e, w)).
Proof.
  split.
  - intros settings_data acts vals v list_type payloads Hsd Hcs Hv Hlt Hp Hall.
    cbv zeta. rewrite add_list_run, Hsd, Hcs, Hv, Hlt, Hp. cbv zeta.
    rewrite add_list_loop_tolerant by exact Hall.
    cbn [fst snd set_filter_lists set_defaults with_log self filter_lists log filter_type].
    split; [done|]. split; [by rewrite lookup_insert_eq|].
    split; [apply length_constructed|]. split; [|done].
    intros f. apply elem_of_constructed.
  - intros settings_data e Hsd Hcs. by rewrite add_list_run, Hsd, Hcs.
Qed.


(** C8 (amended): from a fresh filter list, after any sequence of
    [add_list] calls each of the two dictionaries holds at most one entry
    per list type; a further call for a list type that has a partition
    leaves, when it returns normally, the newly constructed partition and
    the new defaults under that type, and when it raises in its loop, the
    new defaults beside the earlier partition; in both cases each dictionary
    keeps its number of entries. *)
Theorem add_list_tags_unique
        (filter_class : FilterData → option ActionSettings
                        → result (Filter FilterContext ActionSettings)) calls :
  let w := add_lists create_settings calls
             {| self := FilterList_init filter_class; log := [] |} in
  (∀ list_type, (entries_for list_type (filter_lists (self w)) ≤ 1)%nat
                ∧ (entries_for list_type (defaults (self w)) ≤ 1)%nat)
  ∧ (∀ list_data settings_data acts vals v list_type payloads,
        ld_settings list_data = Some settings_data →
        create_settings settings_data = Ok (acts, vals) →
        ld_list_type list_data = Some v →
        ListType_call v = Ok list_type →
        ld_filters list_data = Some payloads →
        is_Some (filter_lists (self w) !! list_type) →
        let after := add_list create_settings list_data w in
        after.1 = Ok tt →
        filter_lists (self after.2) !! list_type
        = Some (constructed filter_class acts payloads)
        ∧ defaults (self after.2) !! list_type
          = Some {| d_actions := acts; d_validations := vals |}
        ∧ size (filter_lists (self after.2)) = size (filter_lists (self w))
        ∧ size (defaults (self after.2)) = size (defaults (self w))
        ∧ entries_for list_type (filter_lists (self after.2)) = 1%nat
        ∧ entries_for list_type (defaults (self after.2)) = 1%nat
        ∧ (∀ other, other ≠ list_type →
              filter_lists (self after.2) !! other = filter_lists (self w) !! other
              ∧ defaults (self after.2) !! other = defaults (self w) !! other))
  ∧ (∀ list_data settings_data acts vals v list_type payloads,
        ld_settings list_data = Some settings_data →
        create_settings settings_data = Ok (acts, vals) →
        ld_list_type list_data = Some v →
        ListType_call v = Ok list_type →
        ld_filters list_data = Some payloads →
        is_Some (filter_lists (self w) !! list_type) →
        let after := add_list create_settings list_data w in
        after.1 ≠ Ok tt →
        filter_lists (self after.2) = filter_lists (self w)
        ∧ defaults (self after.2) !! list_type
          = Some {| d_actions := acts; d_validations := vals |}
        ∧ size (defaults (self after.2)) = size (defaults (self w))
        ∧ entries_for list_type (filter_lists (self after.2)) = 1%nat
        ∧ entries_for list_type (defaults (self after.2)) = 1%nat).
Proof.
  intros w. destruct (add_lists_invariant filter_class calls) as [Hft Hdom].
  fold w in Hft, Hdom. split; [|split].
  - intros list_type. split; apply entries_for_le_1.
  - intros list_data settings_data acts vals v list_type payloads
           Hsd Hcs Hv Hlt Hp Hpresent after Hok.
    destruct (add_list_after list_data w _ _ _ _ _ _ Hsd Hcs Hv Hlt Hp)
      as (Hdefaults & Hfilters & _).
    fold after in Hdefaults, Hfilters. specialize (Hfilters Hok).
    rewrite Hft in Hfilters.
    assert (Hpresent' : is_Some (defaults (self w) !! list_type)).
    { apply elem_of_dom, Hdom, elem_of_dom, Hpresent. }
    rewrite Hdefaults, Hfilters.
    rewrite !lookup_insert_eq, !map_size_insert_Some by done.
    repeat split; try done.
    + apply entries_for_present. rewrite lookup_insert_eq. eauto.
    + apply entries_for_present. rewrite lookup_insert_eq. eauto.
    + by rewrite lookup_insert_ne.
    + by rewrite lookup_insert_ne.
  - intros list_data settings_data acts vals v list_type payloads
           Hsd Hcs Hv Hlt Hp Hpresent after Hraised.
    destruct (add_list_after list_data w _ _ _ _ _ _ Hsd Hcs Hv Hlt Hp)
      as (Hdefaults & _ & Hfilters).
    fold after in Hdefaults, Hfilters. specialize (Hfilters Hraised).
    assert (Hpresent' : is_Some (defaults (self w) !! list_type)).
    { apply elem_of_dom, Hdom, elem_of_dom, Hpresent. }
    rewrite Hdefaults, Hfilters.
    rewrite lookup_insert_eq, map_size_insert_Some by done.
    repeat split; try done.
    + by apply entries_for_present.
    + apply entries_for_present. rewrite lookup_insert_eq. eauto.
Qed.


End ConstructionProperties.

(** ** The construction on sample payloads *)

(** C5 as stated fails: of two payloads one fails construction, with an
    exception that is not a [TypeError]; the settings are well formed, and
    [add_list] raises instead of building the partition of the one filter
    that remains. *)
Lemma add_list_partial_failure_counterexample :
  let payloads := [Scenario.WellFormed 1; Scenario.BadContent 2] in
  let after := add_list Scenario.create_settings
                 (Scenario.payload (PyInt 0) payloads) Scenario.fresh in
  Scenario.create_settings (Some "{}") = Ok (Some tt, Some Scenario.default_validations)
  ∧ length payloads = 2%nat
  ∧ length (filter (λ d, malformed Scenario.filter_type (Some tt) d = true) payloads)
    = 1%nat
  ∧ after.1 = Raise (OtherError "re.error" "unterminated character set")
  ∧ ¬ ∃ partition, filter_lists (self after.2) !! DENY = Some partition
                   ∧ length partition = (2 - 1)%nat.
Proof.
  intros payloads after.
  split; [reflexivity|]. split; [reflexivity|]. split; [reflexivity|].
  split; [reflexivity|].
  intros (partition & Hlookup & _). vm_compute in Hlookup. discriminate Hlookup.
Qed.

(** An instance of C5 (amended): three payloads, the second of which raises
    a [TypeError]. *)
Lemma add_list_partial_failure_witness :
  let payloads := [Scenario.WellFormed 1; Scenario.MissingField 2; Scenario.WellFormed 3] in
  let after := add_list Scenario.create_settings
                 (Scenario.payload (PyInt 0) payloads) Scenario.fresh in
  let partition := constructed Scenario.filter_type (Some tt) payloads in
  after.1 = Ok tt
  ∧ filter_lists (self after.2) !! DENY = Some partition
  ∧ length partition
    = (length payloads
       - length (filter (λ d, malformed Scenario.filter_type (Some tt) d = true) payloads))%nat
  ∧ (∀ f, f ∈ partition
          ↔ ∃ d, d ∈ payloads ∧ Scenario.filter_type d (Some tt) = Ok f)
  ∧ log after.2 = [] ++ logged Scenario.filter_type (Some tt) payloads.
Proof.
  intros payloads after partition.
  assert (Htolerated :
            Forall (λ d, malformed (filter_type (self Scenario.fresh)) (Some tt) d
                         = raises_TypeError (filter_type (self Scenario.fresh)) (Some tt) d)
                   payloads).
  { repeat apply Forall_cons_2; try apply Forall_nil_2; reflexivity. }
  exact (proj1 (add_list_partial_failure Scenario.create_settings
                  (Scenario.payload (PyInt 0) payloads) Scenario.fresh)
               (Some "{}") (Some tt) (Some Scenario.default_validations)
               (PyInt 0) DENY payloads eq_refl eq_refl eq_refl eq_refl eq_refl
               Htolerated).
Defined.



(** C8 as stated fails: the DENY partition exists when a later call for
    DENY raises in its loop; the call is for a list type that is present,
    and the partition it leaves is the earlier one, not the one of its
    payloads. *)
Lemma add_list_tags_unique_counterexample :
  let w := add_lists Scenario.create_settings
             [Scenario.payload (PyInt 0) [Scenario.WellFormed 1]] Scenario.fresh in
  let payloads := [Scenario.WellFormed 2; Scenario.BadContent 3] in
  let after := add_list Scenario.create_settings (Scenario.payload (PyInt 0) payloads) w in
  is_Some (filter_lists (self w) !! DENY)
  ∧ after.1 = Raise (OtherError "re.error" "unterminated character set")
  ∧ filter_lists (self after.2) !! DENY = filter_lists (self w) !! DENY
  ∧ filter_lists (self after.2) !! DENY
    = Some [ {| filter_id := 1; triggered_on := Scenario.always;
                validations := None; actions := Some tt |} ]
  ∧ filter_lists (self after.2) !! DENY
    ≠ Some (constructed Scenario.filter_type (Some tt) payloads).
Proof.
  intros w payloads after.
  assert (Hlookup : filter_lists (self after.2) !! DENY
                    = Some [ {| filter_id := 1; triggered_on := Scenario.always;
                                validations := None; actions := Some tt |} ])
    by (vm_compute; reflexivity).
  split; [eexists; vm_compute; reflexivity|].
  split; [reflexivity|]. split; [vm_compute; reflexivity|].
  split; [exact Hlookup|].
  rewrite Hlookup. cbn. intros Heq. injection Heq as Heq. discriminate Heq.
Qed.

(** An instance of C8 (amended): a second list of type 0 replaces the
    first. *)
Lemma add_list_tags_unique_witness :
  let w := add_lists Scenario.create_settings
             [Scenario.payload (PyInt 0) [Scenario.WellFormed 1]] Scenario.fresh in
  let payloads := [Scenario.WellFormed 2; Scenario.MissingField 3] in
  let after := add_list Scenario.create_settings (Scenario.payload (PyInt 0) payloads) w in
  filter_lists (self after.2) !! DENY
  = Some (constructed Scenario.filter_type (Some tt) payloads)
  ∧ size (filter_lists (self after.2)) = size (filter_lists (self w))
  ∧ entries_for DENY (filter_lists (self after.2)) = 1%nat.
Proof.
  intros w payloads after.
  assert (Hpresent : is_Some (filter_lists (self w) !! DENY)).
  { eexists. vm_compute. reflexivity. }
  assert (Hok : after.1 = Ok tt) by (vm_compute; reflexivity).
  destruct (proj1 (proj2 (add_list_tags_unique Scenario.create_settings
                            Scenario.filter_type
                            [Scenario.payload (PyInt 0) [Scenario.WellFormed 1]]))
                  (Scenario.payload (PyInt 0) payloads)
                  (Some "{}") (Some tt) (Some Scenario.default_validations)
                  (PyInt 0) DENY payloads eq_refl eq_refl eq_refl eq_refl eq_refl
                  Hpresent Hok)
    as (Hnew & _ & Hsize & _ & Hone & _).
  split; [exact Hnew | split; [exact Hsize | exact Hone]].
Defined.



(** ** More on the relevance resolver *)

Section ResolverOrder.

Context {FilterContext ActionSettings : Type}.

Implicit Types (ctx : FilterContext) (defaults : ValidationSettings FilterContext).
Implicit Types (filters : list (Filter FilterContext ActionSettings)).
Implicit Types (f : Filter FilterContext ActionSettings).

(** Python's [X < Y] on sets: every name of [X] is in [Y], and [Y] has a
    name that [X] lacks. *)
Lemma proper_subset_names (X Y : gset string) :
  X ⊂ Y ↔ X ⊆ Y ∧ ∃ name, name ∈ Y ∧ name ∉ X.
Proof.
  split.
  - intros [Hsub Hnot]. split; [exact Hsub|].
    destruct (decide (Y ∖ X = ∅)) as [Hempty|Hne].
    + destruct Hnot. intros name Hin.
      destruct (decide (name ∈ X)) as [|Hout]; [assumption|].
      assert (Hdiff : name ∈ Y ∖ X) by (apply elem_of_difference; by split).
      rewrite Hempty in Hdiff. by apply not_elem_of_empty in Hdiff.
    + apply set_choose_L in Hne as [name Hname].
      apply elem_of_difference in Hname. by exists name.
  - intros [Hsub (name & HinY & HoutX)]. split; [exact Hsub|].
    intros Hback. apply HoutX, Hback, HinY.
Qed.

(** X1: the resolver is sound for the docstring: every filter it returns is a
    filter of the input, is relevant in the words of the docstring and has
    triggered. *)
Theorem filter_list_result_sound ctx filters defaults f :
  f ∈ filter_list_result ctx filters defaults →
  f ∈ filters ∧ relevant_by_spec ctx defaults f ∧ triggered_on f ctx = true.
Proof.
  intros [Hin Hsel]%elem_of_filter_list_result. split; [exact Hin|].
  unfold relevant_by_spec. destruct (validations f) as [v|] eqn:Hv.
  - destruct (proj1 (selects_overrides ctx defaults f v Hv) Hsel)
      as (Hfailed & [Hsub _] & Htrig).
    split; [split|]; assumption.
  - destruct (proj1 (selects_no_overrides ctx defaults f Hv) Hsel) as [Hempty Htrig].
    split; assumption.
Qed.

(** A returned filter with overrides has passed a rule of its own. *)
Lemma filter_list_result_passed_some ctx filters defaults f v :
  validations f = Some v →
  f ∈ filter_list_result ctx filters defaults →
  ∃ name, name ∈ (evaluate v ctx).1.
Proof.
  intros Hv [_ Hsel]%elem_of_filter_list_result.
  destruct (proj1 (selects_overrides ctx defaults f v Hv) Hsel) as (_ & Hproper & _).
  apply proper_subset_names in Hproper as (_ & name & Hname & _). by exists name.
Qed.

(** X2: for a filter with overrides, the exact condition of the code: it is
    returned iff it is in the input, none of its overrides failed, every
    failed default is among its passed overrides, some passed override is not
    a failed default, and it triggers. *)
Theorem filter_list_result_overrides_exact ctx filters defaults f v :
  validations f = Some v →
  f ∈ filter_list_result ctx filters defaults
  ↔ f ∈ filters
    ∧ (evaluate v ctx).2 = ∅
    ∧ (evaluate defaults ctx).2 ⊆ (evaluate v ctx).1
    ∧ (∃ name, name ∈ (evaluate v ctx).1 ∧ name ∉ (evaluate defaults ctx).2)
    ∧ triggered_on f ctx = true.
Proof.
  intros Hv.
  rewrite elem_of_filter_list_result, (selects_overrides _ _ _ _ Hv),
    proper_subset_names.
  tauto.
Qed.

(** X3: a filter whose overrides pass no rule in the context, as one whose
    rule set has no entries, is never returned, whatever the defaults and its
    trigger. *)
Theorem filter_list_result_no_passed_override ctx filters defaults f v :
  validations f = Some v →
  (evaluate v ctx).1 = ∅ ∨ entries v = ∅ →
  f ∉ filter_list_result ctx filters defaults.
Proof.
  intros Hv Hnone Hin.
  apply (filter_list_result_passed_some ctx filters defaults f v Hv) in Hin
    as (name & Hname).
  destruct Hnone as [Hpassed|Hentries].
  - rewrite Hpassed in Hname. by apply not_elem_of_empty in Hname.
  - unfold evaluate in Hname. rewrite Hentries in Hname. cbn [fst] in Hname.
    rewrite map_filter_empty, dom_empty_L in Hname.
    by apply not_elem_of_empty in Hname.
Qed.

(** X4: the resolver decides each filter on its own: the result for a
    concatenation is the concatenation of the results, and an empty input
    gives an empty result. *)
Theorem filter_list_result_app ctx filters filters' defaults :
  filter_list_result ctx (filters ++ filters') defaults
  = filter_list_result ctx filters defaults ++ filter_list_result ctx filters' defaults
  ∧ filter_list_result ctx (@nil (Filter FilterContext ActionSettings)) defaults = [].
Proof.
  rewrite !filter_list_result_filter. split; [apply filter_app | reflexivity].
Qed.

(** X5: resolving the result again, in the same context and with the same
    defaults, returns it unchanged. *)
Theorem filter_list_result_idempotent ctx filters defaults :
  filter_list_result ctx (filter_list_result ctx filters defaults) defaults
  = filter_list_result ctx filters defaults.
Proof.
  rewrite !filter_list_result_filter.
  induction filters as [|f filters IH]; [reflexivity|].
  rewrite filter_cons.
  destruct (decide (selects ctx (evaluate defaults ctx).2 f = true)) as [Hsel|Hsel].
  - rewrite filter_cons, decide_True by exact Hsel. by rewrite IH.
  - exact IH.
Qed.

(** X6: the result keeps the order of the input: it is the input with some
    filters left out. *)
Theorem filter_list_result_sublist ctx filters defaults :
  filter_list_result ctx filters defaults `sublist_of` filters.
Proof. rewrite filter_list_result_filter. apply sublist_filter. Qed.

(** X7: the resolver uses the defaults only through the names that failed:
    two default settings with the same failed names give the same result
    ([passed_by_default] is never read). *)
Theorem filter_list_result_failed_names_only ctx filters defaults defaults' :
  (evaluate defaults ctx).2 = (evaluate defaults' ctx).2 →
  filter_list_result ctx filters defaults = filter_list_result ctx filters defaults'.
Proof. intros Hsame. rewrite !filter_list_result_filter. by rewrite Hsame. Qed.

End ResolverOrder.

(** Instances of X1, X2, X3 and X7 on the scenario of §8. *)

Lemma filter_list_result_sound_witness :
  Scenario.F4 ∈ [Scenario.F1; Scenario.F2; Scenario.F3; Scenario.F4]
  ∧ relevant_by_spec Scenario.ctx Scenario.default_validations Scenario.F4
  ∧ triggered_on Scenario.F4 Scenario.ctx = true.
Proof.
  apply (filter_list_result_sound Scenario.ctx
           [Scenario.F1; Scenario.F2; Scenario.F3; Scenario.F4]
           Scenario.default_validations Scenario.F4).
  replace (filter_list_result Scenario.ctx
             [Scenario.F1; Scenario.F2; Scenario.F3; Scenario.F4]
             Scenario.default_validations)
    with [Scenario.F4] by (vm_compute; reflexivity).
  apply list_elem_of_here.
Defined.

Lemma filter_list_result_overrides_exact_witness :
  Scenario.F4 ∈ filter_list_result Scenario.ctx [Scenario.F2; Scenario.F4]
                  Scenario.default_validations.
Proof.
  apply (proj2 (filter_list_result_overrides_exact Scenario.ctx
                  [Scenario.F2; Scenario.F4] Scenario.default_validations
                  Scenario.F4 _ eq_refl)).
  split; [apply list_elem_of_further, list_elem_of_here|].
  split; [by_evaluation|]. split; [by_evaluation|].
  split; [|reflexivity].
  exists "other_rule". split; by_evaluation.
Defined.

Lemma filter_list_result_no_passed_override_witness :
  with_validations (Some Scenario.no_entries) Scenario.F1
  ∉ filter_list_result Scenario.ctx
      [with_validations (Some Scenario.no_entries) Scenario.F1] Scenario.defaults_pass.
Proof.
  apply (filter_list_result_no_passed_override Scenario.ctx
           [with_validations (Some Scenario.no_entries) Scenario.F1]
           Scenario.defaults_pass
           (with_validations (Some Scenario.no_entries) Scenario.F1)
           Scenario.no_entries eq_refl).
  right. reflexivity.
Defined.

Lemma filter_list_result_failed_names_only_witness :
  filter_list_result Scenario.ctx [Scenario.F1; Scenario.F4] Scenario.default_validations
  = filter_list_result Scenario.ctx [Scenario.F1; Scenario.F4]
      {| entries := {[ "public_channel" := Scenario.in_channel "general";
                       "other_rule" := Scenario.always ]} |}.
Proof.
  apply (filter_list_result_failed_names_only Scenario.ctx [Scenario.F1; Scenario.F4]
           Scenario.default_validations
           {| entries := {[ "public_channel" := Scenario.in_channel "general";
                            "other_rule" := Scenario.always ]} |}).
  by_evaluation.
Defined.

(** ** More on the construction *)

Section ConstructionMore.

Context {FilterContext ActionSettings SettingsData FilterData : Type}.

Variable create_settings :
  SettingsData → result (option ActionSettings * option (ValidationSettings FilterContext)).

Implicit Types (w : World FilterContext ActionSettings FilterData).
Implicit Types (fl : FilterList FilterContext ActionSettings FilterData).
Implicit Types (list_data : ListData SettingsData FilterData).
Implicit Types (payloads : list FilterData).
Implicit Types (filters : list (Filter FilterContext ActionSettings)).
Implicit Types (acts : option ActionSettings).
Implicit Types (filter_class : FilterData → option ActionSettings
                               → result (Filter FilterContext ActionSettings)).

Lemma tolerated_Forall filter_class acts payloads :
  tolerated filter_class acts payloads = true
  ↔ Forall (λ d, malformed filter_class acts d = raises_TypeError filter_class acts d)
           payloads.
Proof.
  unfold tolerated. induction payloads as [|d payloads IH]; cbn [forallb].
  - split; [intros _; apply Forall_nil_2 | reflexivity].
  - rewrite andb_true_iff, IH, Forall_cons.
    destruct (malformed filter_class acts d), (raises_TypeError filter_class acts d);
      cbn [Bool.eqb]; intuition congruence.
Qed.

(** A payload that is not tolerated raises an exception of another class. *)
Lemma not_tolerated_raises filter_class acts payloads :
  tolerated filter_class acts payloads = false →
  ∃ d e, d ∈ payloads ∧ filter_class d acts = Raise e ∧ is_TypeError e = false.
Proof.
  unfold tolerated. induction payloads as [|d payloads IH]; cbn [forallb]; [done|].
  rewrite andb_false_iff. intros [Hd|Hrest].
  - unfold malformed, raises_TypeError in Hd.
    destruct (filter_class d acts) as [f|e] eqn:Hcall; [done|].
    exists d, e. split; [apply list_elem_of_here|]. split; [exact Hcall|].
    destruct (is_TypeError e); [done | reflexivity].
  - destruct (IH Hrest) as (d' & e & Hin & Hcall & He).
    exists d', e. split; [by apply list_elem_of_further | by split].
Qed.

(** The loop only adds to the log, and only [TypeError]s that the filter
    class raised on one of the payloads. *)
Lemma add_list_loop_log acts payloads filters w :
  ∃ warnings,
    log (for_each (add_list_body acts) payloads filters w).2 = log w ++ warnings
    ∧ Forall (λ e, is_TypeError e = true
                   ∧ ∃ d, d ∈ payloads ∧ filter_type (self w) d acts = Raise e) warnings.
Proof.
  revert filters w. induction payloads as [|d payloads IH]; intros filters w.
  - exists []. cbn. split; [by rewrite app_nil_r | apply Forall_nil_2].
  - cbn [for_each]. unfold mbind, M_bind. rewrite add_list_body_run.
    destruct (filter_type (self w) d acts) as [new_filter|e] eqn:Hcall.
    + destruct (IH (filters ++ [new_filter]) w) as (warnings & Hlog & Hall).
      exists warnings. split; [exact Hlog|].
      eapply Forall_impl; [exact Hall|]. intros e [He (d' & Hin & Hd')].
      split; [exact He|]. exists d'. split; [by apply list_elem_of_further | exact Hd'].
    + destruct (is_TypeError e) eqn:He.
      * destruct (IH filters (with_log w [e])) as (warnings & Hlog & Hall).
        exists (e :: warnings). split.
        { rewrite Hlog. cbn [with_log log]. by rewrite <- app_assoc. }
        apply Forall_cons. split.
        { split; [exact He|]. exists d. split; [apply list_elem_of_here | exact Hcall]. }
        eapply Forall_impl; [exact Hall|]. intros e' [He' (d' & Hin & Hd')].
        split; [exact He'|]. exists d'. split; [by apply list_elem_of_further | exact Hd'].
      * exists []. cbn [snd]. split; [by rewrite app_nil_r | apply Forall_nil_2].
Qed.

(** [add_list] leaves the filter list object that [add_list_update]
    computes. *)
Lemma add_list_self list_data w :
  self (add_list create_settings list_data w).2
  = add_list_update create_settings list_data (self w).
Proof.
  rewrite add_list_run. unfold add_list_update.
  destruct (ld_settings list_data) as [settings_data|]; [|reflexivity].
  destruct (create_settings settings_data) as [[acts vals]|e]; [|reflexivity].
  destruct (ld_list_type list_data) as [v|]; [|reflexivity].
  destruct (ListType_call v) as [list_type|e]; [|reflexivity].
  cbv zeta. destruct (ld_filters list_data) as [payloads|]; [|reflexivity].
  set (w1 := set_defaults list_type {| d_actions := acts; d_validations := vals |} w).
  assert (Hft : filter_type (self w1) = filter_type (self w)) by reflexivity.
  destruct (tolerated (filter_type (self w)) acts payloads) eqn:Htol.
  - rewrite add_list_loop_tolerant by (rewrite Hft; by apply tolerated_Forall).
    reflexivity.
  - destruct (not_tolerated_raises _ _ _ Htol) as (d & e & Hin & Hcall & He).
    rewrite <- Hft in Hcall.
    destruct (add_list_loop_raises acts payloads [] w1 d e Hin Hcall He)
      as (d' & e' & _ & _ & _ & Hraise).
    pose proof (add_list_loop_self acts payloads [] w1) as Hself.
    destruct (for_each _ payloads [] w1) as [[filters|e0] w2]; cbn [fst snd] in *;
      [discriminate Hraise|].
    rewrite Hself. reflexivity.
Qed.

(** [add_list] only adds to the log. *)
Lemma add_list_log list_data w :
  ∃ warnings,
    log (add_list create_settings list_data w).2 = log w ++ warnings
    ∧ Forall (λ e, is_TypeError e = true
                   ∧ ∃ d acts, filter_type (self w) d acts = Raise e) warnings.
Proof.
  rewrite add_list_run.
  assert (Hnone : ∃ warnings,
             log w = log w ++ warnings
             ∧ Forall (λ e, is_TypeError e = true
                            ∧ ∃ d acts, filter_type (self w) d acts = Raise e) warnings).
  { exists []. split; [by rewrite app_nil_r | apply Forall_nil_2]. }
  destruct (ld_settings list_data) as [settings_data|]; [|exact Hnone].
  destruct (create_settings settings_data) as [[acts vals]|e]; [|exact Hnone].
  destruct (ld_list_type list_data) as [v|]; [|exact Hnone].
  destruct (ListType_call v) as [list_type|e]; [|exact Hnone].
  cbv zeta. destruct (ld_filters list_data) as [payloads|]; [|exact Hnone].
  destruct (add_list_loop_log acts payloads []
              (set_defaults list_type {| d_actions := acts; d_validations := vals |} w))
    as (warnings & Hlog & Hall).
  exists warnings. split.
  - destruct (for_each _ payloads [] _) as [[filters|e] w2]; exact Hlog.
  - eapply Forall_impl; [exact Hall|]. intros e [He (d & _ & Hd)].
    split; [exact He|]. by exists d, acts.
Qed.

(** X8: the keys of the payload are read in the order settings, list type,
    filters: a payload without settings or without list type raises
    [KeyError] and changes nothing; a payload without filters raises
    [KeyError] after the defaults of its list type were assigned. *)
Theorem add_list_missing_key list_data w :
  (ld_settings list_data = None →
   add_list create_settings list_data w = (Raise (KeyError "settings"), w))
  ∧ (∀ settings_data acts vals,
        ld_settings list_data = Some settings_data →
        create_settings settings_data = Ok (acts, vals) →
        ld_list_type list_data = None →
        add_list create_settings list_data w = (Raise (KeyError "list_type"), w))
  ∧ (∀ settings_data acts vals v list_type,
        ld_settings list_data = Some settings_data →
        create_settings settings_data = Ok (acts, vals) →
        ld_list_type list_data = Some v →
        ListType_call v = Ok list_type →
        ld_filters list_data = None →
        add_list create_settings list_data w
        = (Raise (KeyError "filters"),
           set_defaults list_type {| d_actions := acts; d_validations := vals |} w)).
Proof.
  split; [|split].
  - intros Hsd. by rewrite add_list_run, Hsd.
  - intros settings_data acts vals Hsd Hcs Hv. by rewrite add_list_run, Hsd, Hcs, Hv.
  - intros settings_data acts vals v list_type Hsd Hcs Hv Hlt Hp.
    by rewrite add_list_run, Hsd, Hcs, Hv, Hlt, Hp.
Qed.

(** X9: with settings, list type and filters that are read without error,
    [add_list] returns normally iff every filter construction that fails
    raises a [TypeError]. *)
Theorem add_list_returns_iff list_data w settings_data acts vals v list_type payloads :
  ld_settings list_data = Some settings_data →
  create_settings settings_data = Ok (acts, vals) →
  ld_list_type list_data = Some v →
  ListType_call v = Ok list_type →
  ld_filters list_data = Some payloads →
  (add_list create_settings list_data w).1 = Ok tt
  ↔ Forall (λ d, malformed (filter_type (self w)) acts d
                 = raises_TypeError (filter_type (self w)) acts d) payloads.
Proof.
  intros Hsd Hcs Hv Hlt Hp. rewrite add_list_run, Hsd, Hcs, Hv, Hlt, Hp. cbv zeta.
  set (w1 := set_defaults list_type {| d_actions := acts; d_validations := vals |} w).
  assert (Hft : filter_type (self w1) = filter_type (self w)) by reflexivity.
  split.
  - intros Hok. apply tolerated_Forall.
    destruct (tolerated (filter_type (self w)) acts payloads) eqn:Htol; [reflexivity|].
    destruct (not_tolerated_raises _ _ _ Htol) as (d & e & Hin & Hcall & He).
    rewrite <- Hft in Hcall.
    destruct (add_list_loop_raises acts payloads [] w1 d e Hin Hcall He)
      as (d' & e' & _ & _ & _ & Hraise).
    destruct (for_each _ payloads [] w1) as [[filters|e0] w2]; cbn [fst snd] in *;
      [discriminate Hraise | discriminate Hok].
  - intros Hall. rewrite add_list_loop_tolerant by (rewrite Hft; exact Hall).
    reflexivity.
Qed.

(** X10: a call leaves the other list types alone: whatever its outcome, the
    partition and the defaults of a list type that the payload does not name
    are as before. *)
Theorem add_list_frame list_data w other :
  (∀ v, ld_list_type list_data = Some v → ListType_call v ≠ Ok other) →
  let after := (add_list create_settings list_data w).2 in
  filter_lists (self after) !! other = filter_lists (self w) !! other
  ∧ defaults (self after) !! other = defaults (self w) !! other.
Proof.
  intros Hother after. subst after. rewrite add_list_self. unfold add_list_update.
  destruct (ld_settings list_data) as [settings_data|]; [|done].
  destruct (create_settings settings_data) as [[acts vals]|e]; [|done].
  destruct (ld_list_type list_data) as [v|]; [|done].
  specialize (Hother v eq_refl).
  destruct (ListType_call v) as [list_type|e]; [|done].
  assert (Hne : list_type ≠ other) by congruence.
  cbv zeta. destruct (ld_filters list_data) as [payloads|].
  - destruct (tolerated _ acts payloads); cbn [filter_lists defaults];
      rewrite ?lookup_insert_ne by exact Hne; done.
  - cbn [filter_lists defaults]. by rewrite lookup_insert_ne.
Qed.

(** X11: a call never removes anything: the list types that had a partition
    or defaults still have one, the filter class is the same and the log
    has only grown. *)
Theorem add_list_grows list_data w :
  let after := (add_list create_settings list_data w).2 in
  dom (filter_lists (self w)) ⊆ dom (filter_lists (self after))
  ∧ dom (defaults (self w)) ⊆ dom (defaults (self after))
  ∧ filter_type (self after) = filter_type (self w)
  ∧ log w `prefix_of` log after.
Proof.
  intros after. subst after.
  destruct (add_list_log list_data w) as (warnings & Hlog & _).
  rewrite Hlog, add_list_self. unfold add_list_update.
  assert (Hprefix : log w `prefix_of` log w ++ warnings) by by exists warnings.
  destruct (ld_settings list_data) as [settings_data|]; [|done].
  destruct (create_settings settings_data) as [[acts vals]|e]; [|done].
  destruct (ld_list_type list_data) as [v|]; [|done].
  destruct (ListType_call v) as [list_type|e]; [|done].
  cbv zeta. destruct (ld_filters list_data) as [payloads|].
  - destruct (tolerated _ acts payloads); cbn [filter_lists defaults filter_type];
      repeat split; try done; apply dom_insert_subseteq.
  - cbn [filter_lists defaults filter_type].
    repeat split; try done. apply dom_insert_subseteq.
Qed.

Lemma add_list_update_filter_type list_data fl :
  filter_type (add_list_update create_settings list_data fl) = filter_type fl.
Proof.
  unfold add_list_update.
  destruct (ld_settings list_data) as [settings_data|]; [|done].
  destruct (create_settings settings_data) as [[acts vals]|e]; [|done].
  destruct (ld_list_type list_data) as [v|]; [|done].
  destruct (ListType_call v) as [list_type|e]; [|done].
  cbv zeta. destruct (ld_filters list_data) as [payloads|]; [|done].
  by destruct (tolerated _ acts payloads).
Qed.

(** X12: repeating a call changes nothing more in the filter list object:
    after the second call the partitions and the defaults are those the
    first call left. *)
Theorem add_list_repeat list_data w :
  let once := (add_list create_settings list_data w).2 in
  let twice := (add_list create_settings list_data once).2 in
  self twice = self once.
Proof.
  intros once twice. subst once twice. rewrite !add_list_self.
  generalize (self w). intros fl.
  unfold add_list_update at 1.
  rewrite add_list_update_filter_type.
  unfold add_list_update.
  destruct (ld_settings list_data) as [settings_data|]; [|done].
  destruct (create_settings settings_data) as [[acts vals]|e]; [|done].
  destruct (ld_list_type list_data) as [v|]; [|done].
  destruct (ListType_call v) as [list_type|e]; [|done].
  cbv zeta. destruct (ld_filters list_data) as [payloads|].
  - destruct (tolerated _ acts payloads); cbn [filter_lists defaults filter_type];
      by rewrite ?insert_insert_eq.
  - cbn [filter_lists defaults filter_type]. by rewrite insert_insert_eq.
Qed.

End ConstructionMore.

(** ** Sequences of calls *)

Section ConstructionSequences.

Context {FilterContext ActionSettings SettingsData FilterData : Type}.

Variable create_settings :
  SettingsData → result (option ActionSettings * option (ValidationSettings FilterContext)).

Implicit Types (w : World FilterContext ActionSettings FilterData).
Implicit Types (fl : FilterList FilterContext ActionSettings FilterData).
Implicit Types (list_data : ListData SettingsData FilterData).
Implicit Types (filter_class : FilterData → option ActionSettings
                               → result (Filter FilterContext ActionSettings)).

(** What a call assigns depends on the payload and on the filter class
    only: nothing, the defaults of a list type, or these and its
    partition. *)
Lemma add_list_update_shape list_data filter_class :
  (∀ fl, filter_type fl = filter_class →
         add_list_update create_settings list_data fl = fl)
  ∨ ∃ list_type v new_defaults,
      ld_list_type list_data = Some v ∧ ListType_call v = Ok list_type
      ∧ ((∀ fl, filter_type fl = filter_class →
                add_list_update create_settings list_data fl
                = {| filter_lists := filter_lists fl;
                     defaults := <[list_type := new_defaults]> (defaults fl);
                     filter_type := filter_type fl |})
         ∨ ∃ partition,
             (∀ f, f ∈ partition → ∃ d acts, filter_class d acts = Ok f)
             ∧ ∀ fl, filter_type fl = filter_class →
                     add_list_update create_settings list_data fl
                     = {| filter_lists := <[list_type := partition]> (filter_lists fl);
                          defaults := <[list_type := new_defaults]> (defaults fl);
                          filter_type := filter_type fl |}).
Proof.
  unfold add_list_update.
  destruct (ld_settings list_data) as [settings_data|]; [|by left].
  destruct (create_settings settings_data) as [[acts vals]|e]; [|by left].
  destruct (ld_list_type list_data) as [v|]; [|by left].
  destruct (ListType_call v) as [list_type|e] eqn:Hlt; [|by left].
  right. exists list_type, v, {| d_actions := acts; d_validations := vals |}.
  split; [reflexivity|]. split; [exact Hlt|]. cbv zeta.
  destruct (ld_filters list_data) as [payloads|]; [|by left].
  destruct (tolerated filter_class acts payloads) eqn:Htol.
  - right. exists (constructed filter_class acts payloads). split.
    + intros f (d & _ & Hd)%elem_of_constructed. by exists d, acts.
    + intros fl ->. by rewrite Htol.
  - left. intros fl ->. by rewrite Htol.
Qed.

(** X13: two calls that do not name the same list type can be made in either
    order: the partitions and the defaults they leave are the same. *)
Theorem add_list_commute list_data1 list_data2 w :
  (∀ v1 v2 list_type,
      ld_list_type list_data1 = Some v1 → ld_list_type list_data2 = Some v2 →
      ListType_call v1 = Ok list_type → ListType_call v2 = Ok list_type → False) →
  self (add_list create_settings list_data2
          (add_list create_settings list_data1 w).2).2
  = self (add_list create_settings list_data1
            (add_list create_settings list_data2 w).2).2.
Proof.
  intros Hapart. rewrite !add_list_self. generalize (self w). intros fl.
  pose proof (add_list_update_filter_type create_settings list_data1 fl) as Hft1.
  pose proof (add_list_update_filter_type create_settings list_data2 fl) as Hft2.
  destruct (add_list_update_shape list_data1 (filter_type fl)) as [Hid1|Hset1].
  { rewrite (Hid1 _ Hft2). by rewrite (Hid1 fl eq_refl). }
  destruct (add_list_update_shape list_data2 (filter_type fl)) as [Hid2|Hset2].
  { rewrite (Hid2 _ Hft1). by rewrite (Hid2 fl eq_refl). }
  destruct Hset1 as (t1 & v1 & d1 & Hv1 & Ht1 & Hset1).
  destruct Hset2 as (t2 & v2 & d2 & Hv2 & Ht2 & Hset2).
  assert (Hne : t1 ≠ t2).
  { intros ->. exact (Hapart v1 v2 t2 Hv1 Hv2 Ht1 Ht2). }
  destruct Hset1 as [Hset1|(p1 & _ & Hset1)], Hset2 as [Hset2|(p2 & _ & Hset2)];
    rewrite (Hset2 _ Hft1), (Hset1 _ Hft2), (Hset1 fl eq_refl), (Hset2 fl eq_refl);
    cbn [filter_lists defaults filter_type]; f_equal;
    by rewrite insert_insert_ne.
Qed.

(** What holds of a fresh filter list and is kept by every call holds after
    any sequence of calls. *)
Lemma add_lists_ind filter_class (P : World FilterContext ActionSettings FilterData → Prop) :
  P {| self := FilterList_init filter_class; log := [] |} →
  (∀ w list_data, P w → P (add_list create_settings list_data w).2) →
  ∀ calls, P (add_lists create_settings calls
                {| self := FilterList_init filter_class; log := [] |}).
Proof.
  intros Hfresh Hstep calls. unfold add_lists.
  generalize dependent {| self := FilterList_init filter_class; log := [] |}.
  induction calls as [|list_data calls IH]; intros w Hw; [exact Hw|].
  cbn [fold_left]. apply IH, Hstep, Hw.
Qed.

(** X14: from a fresh filter list, after any sequence of calls, whatever
    their outcomes, every list type that has a partition has defaults, and
    every filter of every partition was constructed by the filter class from
    a payload. *)
Theorem add_lists_partitions filter_class calls :
  let w := add_lists create_settings calls
             {| self := FilterList_init filter_class; log := [] |} in
  dom (filter_lists (self w)) ⊆ dom (defaults (self w))
  ∧ ∀ list_type partition f,
      filter_lists (self w) !! list_type = Some partition →
      f ∈ partition →
      ∃ d acts, filter_class d acts = Ok f.
Proof.
  cbv zeta. split; [apply add_lists_invariant|].
  apply (add_lists_ind filter_class
           (λ w, filter_type (self w) = filter_class
                 ∧ ∀ list_type partition f,
                     filter_lists (self w) !! list_type = Some partition →
                     f ∈ partition → ∃ d acts, filter_class d acts = Ok f)).
  - split; [reflexivity|]. intros list_type partition f Hlookup.
    cbn [self FilterList_init filter_lists] in Hlookup.
    by rewrite lookup_empty in Hlookup.
  - intros w list_data [Hft Hall]. rewrite add_list_self.
    split; [by rewrite add_list_update_filter_type|].
    destruct (add_list_update_shape list_data filter_class)
      as [Hid|(t & v & d & _ & _ & [Hset|(p & Hp & Hset)])].
    + by rewrite (Hid _ Hft).
    + rewrite (Hset _ Hft). exact Hall.
    + rewrite (Hset _ Hft). cbn [filter_lists].
      intros list_type partition f Hlookup Hin.
      destruct (decide (t = list_type)) as [->|Hne].
      * rewrite lookup_insert_eq in Hlookup. injection Hlookup as <-. by apply Hp.
      * rewrite lookup_insert_ne in Hlookup by exact Hne. by eapply Hall.
Qed.

(** X15: from a fresh filter list, after any sequence of calls, the log
    holds nothing but [TypeError]s that the filter class raised. *)
Theorem add_lists_log filter_class calls :
  let w := add_lists create_settings calls
             {| self := FilterList_init filter_class; log := [] |} in
  Forall (λ e, is_TypeError e = true ∧ ∃ d acts, filter_class d acts = Raise e) (log w).
Proof.
  cbv zeta.
  apply (add_lists_ind filter_class
           (λ w, filter_type (self w) = filter_class
                 ∧ Forall (λ e, is_TypeError e = true
                                ∧ ∃ d acts, filter_class d acts = Raise e) (log w))).
  - split; [reflexivity | apply Forall_nil_2].
  - intros w list_data [Hft Hall].
    split.
    + rewrite add_list_self. by rewrite add_list_update_filter_type.
    + destruct (add_list_log create_settings list_data w) as (warnings & -> & Hnew).
      rewrite Hft in Hnew. apply Forall_app. by split.
Qed.

End ConstructionSequences.

(** ** More on list-type resolution *)

Section ConvertOrder.

Import ListTypeConverter.

Variable past_tense : string → string.

(** X16: whatever [past_tense] is, the first row wins: the converter returns
    DENY iff the token is a DENY alias or the past tense of one; it returns
    ALLOW iff the token is an ALLOW alias or the past tense of one and DENY
    does not claim it; and it raises, with the token, iff neither row claims
    it. *)
Theorem convert_row_order argument :
  (convert past_tense argument = Ok DENY ↔ designates past_tense DENY argument)
  ∧ (convert past_tense argument = Ok ALLOW
     ↔ designates past_tense ALLOW argument ∧ ¬ designates past_tense DENY argument)
  ∧ (∀ e, convert past_tense argument = Raise e
          ↔ e = BadArgument argument
            ∧ ¬ designates past_tense DENY argument
            ∧ ¬ designates past_tense ALLOW argument).
Proof.
  assert (Hdeny : designates past_tense DENY argument
                  ↔ row_matches past_tense argument
                      {[ "deny"; "blocklist"; "blacklist"; "denylist"; "bl"; "dl" ]} = true).
  { rewrite designates_row. split.
    - intros (row & [[_ ->]|[Hne _]]%elem_of_aliases & Hm); [exact Hm | discriminate Hne].
    - intros Hm. eexists. split; [|exact Hm]. apply elem_of_aliases. left. by split. }
  assert (Hallow : designates past_tense ALLOW argument
                   ↔ row_matches past_tense argument
                       {[ "allow"; "allowlist"; "whitelist"; "al"; "wl" ]} = true).
  { rewrite designates_row. split.
    - intros (row & [[Hne _]|[_ ->]]%elem_of_aliases & Hm); [discriminate Hne | exact Hm].
    - intros Hm. eexists. split; [|exact Hm]. apply elem_of_aliases. right. by split. }
  rewrite Hdeny, Hallow. unfold convert, aliases. cbn [convert_loop].
  destruct (row_matches past_tense argument
              {[ "deny"; "blocklist"; "blacklist"; "denylist"; "bl"; "dl" ]});
    destruct (row_matches past_tense argument
                {[ "allow"; "allowlist"; "whitelist"; "al"; "wl" ]});
    (split; [|split]); try intros e; split; try intros [? ?]; try intros ?;
    try (split; [|split]); try congruence; try discriminate; try reflexivity;
    try (intuition congruence).
Qed.

End ConvertOrder.

(** Instances of X8, X9, X10, X13 and X14 on the sample payloads. *)

Lemma add_list_missing_key_witness :
  let list_data := {| ld_settings := Some (Some "{}"); ld_list_type := Some (PyInt 0);
                      ld_filters := @None (list Scenario.filter_payload) |} in
  add_list Scenario.create_settings list_data Scenario.fresh
  = (Raise (KeyError "filters"),
     set_defaults DENY {| d_actions := Some tt;
                          d_validations := Some Scenario.default_validations |}
                  Scenario.fresh).
Proof.
  intros list_data.
  exact (proj2 (proj2 (add_list_missing_key Scenario.create_settings list_data
                         Scenario.fresh))
               (Some "{}") (Some tt) (Some Scenario.default_validations) (PyInt 0) DENY
               eq_refl eq_refl eq_refl eq_refl eq_refl).
Defined.

Lemma add_list_returns_iff_witness :
  (add_list Scenario.create_settings
     (Scenario.payload (PyInt 0) [Scenario.WellFormed 1; Scenario.MissingField 2])
     Scenario.fresh).1 = Ok tt.
Proof.
  apply (proj2 (add_list_returns_iff Scenario.create_settings
                  (Scenario.payload (PyInt 0)
                     [Scenario.WellFormed 1; Scenario.MissingField 2])
                  Scenario.fresh (Some "{}") (Some tt)
                  (Some Scenario.default_validations) (PyInt 0) DENY
                  [Scenario.WellFormed 1; Scenario.MissingField 2]
                  eq_refl eq_refl eq_refl eq_refl eq_refl)).
  repeat apply Forall_cons_2; try apply Forall_nil_2; reflexivity.
Defined.

Lemma add_list_frame_witness :
  let after := (add_list Scenario.create_settings
                  (Scenario.payload (PyInt 0) [Scenario.WellFormed 1])
                  Scenario.fresh).2 in
  filter_lists (self after) !! ALLOW = filter_lists (self Scenario.fresh) !! ALLOW
  ∧ defaults (self after) !! ALLOW = defaults (self Scenario.fresh) !! ALLOW.
Proof.
  apply (add_list_frame Scenario.create_settings
           (Scenario.payload (PyInt 0) [Scenario.WellFormed 1]) Scenario.fresh ALLOW).
  intros v Hv. injection Hv as <-. discriminate.
Defined.

Lemma add_list_commute_witness :
  let deny := Scenario.payload (PyInt 0) [Scenario.WellFormed 1] in
  let allow := Scenario.payload (PyInt 1) [Scenario.WellFormed 2; Scenario.BadContent 3] in
  self (add_list Scenario.create_settings allow
          (add_list Scenario.create_settings deny Scenario.fresh).2).2
  = self (add_list Scenario.create_settings deny
            (add_list Scenario.create_settings allow Scenario.fresh).2).2.
Proof.
  intros deny allow.
  apply (add_list_commute Scenario.create_settings deny allow Scenario.fresh).
  intros v1 v2 list_type Hv1 Hv2.
  injection Hv1 as <-. injection Hv2 as <-. intros H1 H2.
  injection H1 as <-. discriminate H2.
Defined.

Lemma add_lists_partitions_witness :
  ∃ d acts,
    Scenario.filter_type d acts
    = Ok {| filter_id := 1; triggered_on := Scenario.always;
            validations := None; actions := Some tt |}.
Proof.
  apply (proj2 (add_lists_partitions Scenario.create_settings Scenario.filter_type
                  [Scenario.payload (PyInt 0) [Scenario.WellFormed 1]])
               DENY
               [ {| filter_id := 1; triggered_on := Scenario.always;
                    validations := None; actions := Some tt |} ]).
  - vm_compute. reflexivity.
  - apply list_elem_of_here.
Defined.

(** * Properties of the talent pool cog *)

Section TalentPoolRuns.

Import TalentPool.

Implicit Types (env : environment) (trace : list event).

(** A run only adds to the trace. *)
Lemma run_bind {A B} env (p : prog A) (f : A → prog B) trace :
  run env (bind p f) trace
  = match run env p trace with
    | (Returned a, trace') => run env (f a) trace'
    | (Raised e, trace') => (Raised e, trace')
    end.
Proof.
  revert trace. induction p as [a|e|r k IH|c k IH]; intros trace; cbn [bind run].
  - reflexivity.
  - reflexivity.
  - apply IH.
  - apply IH.
Qed.

Lemma run_mbind {A B} env (p : prog A) (f : A → prog B) trace :
  run env (p ≫= f) trace
  = match run env p trace with
    | (Returned a, trace') => run env (f a) trace'
    | (Raised e, trace') => (Raised e, trace')
    end.
Proof. apply run_bind. Qed.

Lemma run_call env (c : call) trace :
  run env (call_ c) trace
  = (env c trace, trace ++ [Called c (env c trace)]).
Proof. unfold call_. cbn [run]. by destruct (env c trace). Qed.

Lemma run_api_get env url params trace :
  run env (api_get url params) trace
  = (env (ApiGet url params) trace,
     trace ++ [Called (ApiGet url params) (env (ApiGet url params) trace)]).
Proof. unfold api_get. exact (run_call env (ApiGet url params) trace). Qed.

Lemma run_api_patch env url body trace :
  run env (api_patch url body) trace
  = (env (ApiPatch url body) trace,
     trace ++ [Called (ApiPatch url body) (env (ApiPatch url body) trace)]).
Proof. unfold api_patch. exact (run_call env (ApiPatch url body) trace). Qed.

Lemma run_session_post env body trace :
  run env (session_post body) trace
  = (env (SessionPost body) trace,
     trace ++ [Called (SessionPost body) (env (SessionPost body) trace)]).
Proof. unfold session_post. exact (run_call env (SessionPost body) trace). Qed.

Lemma run_raise_for_status env status trace :
  run env (raise_for_status status) trace
  = (env (RaiseForStatus status) trace,
     trace ++ [Called (RaiseForStatus status) (env (RaiseForStatus status) trace)]).
Proof. unfold raise_for_status. exact (run_call env (RaiseForStatus status) trace). Qed.

Lemma run_send env text trace :
  run env (send text) trace
  = (env (Send text) trace, trace ++ [Called (Send text) (env (Send text) trace)]).
Proof. unfold send. exact (run_call env (Send text) trace). Qed.

Lemma run_fetch_user_cache env trace :
  run env fetch_user_cache trace
  = (env FetchUserCache trace, trace ++ [Called FetchUserCache (env FetchUserCache trace)]).
Proof. unfold fetch_user_cache. exact (run_call env FetchUserCache trace). Qed.

Lemma run_remove_user env uid trace :
  run env (remove_user uid) trace
  = (env (RemoveUser uid) trace,
     trace ++ [Called (RemoveUser uid) (env (RemoveUser uid) trace)]).
Proof. unfold remove_user. exact (run_call env (RemoveUser uid) trace). Qed.

Lemma run_set_watched_user env uid data trace :
  run env (set_watched_user uid data) trace
  = (env (SetWatchedUser uid data) trace,
     trace ++ [Called (SetWatchedUser uid data) (env (SetWatchedUser uid data) trace)]).
Proof. unfold set_watched_user. exact (run_call env (SetWatchedUser uid data) trace). Qed.

Lemma run_lift_outcome {A} env (o : outcome A) trace :
  run env (lift_outcome o) trace = (o, trace).
Proof. by destruct o. Qed.

Lemma run_try_except {A} env (p : prog A) handler trace :
  run env (try_except p handler) trace
  = match run env p trace with
    | (Returned a, trace') => (Returned a, trace')
    | (Raised e, trace') =>
        match handler e with
        | Some recovery => run env recovery trace'
        | None => (Raised e, trace')
        end
    end.
Proof.
  revert trace. induction p as [a|e|r k IH|c k IH]; intros trace; cbn [try_except run].
  - reflexivity.
  - by destruct (handler e).
  - apply IH.
  - apply IH.
Qed.




(** The parameters of the request of [unwatch]: the [ChainMap] adds the
    user id to the default parameters. *)
Lemma unwatch_params (uid : Z) :
  ChainMap {[ "user__id" := pretty uid ]} api_default_params
  = {[ "user__id" := pretty uid; "active" := "true"; "ordering" := "-inserted_at" ]}.
Proof. unfold ChainMap, api_default_params. by rewrite <- insert_union_singleton_l. Qed.

End TalentPoolRuns.

(** ** Ending a nomination *)

Section TalentPoolUnwatch.

Import TalentPool.

Implicit Types (env : environment) (trace : list event).

(** Goes through the elements of a list of calls given by its elements;
    [tac] settles the elements that [discriminate] does not. *)
Ltac among Hin tac :=
  repeat (apply elem_of_cons in Hin as [Hin|Hin];
          [first [discriminate Hin | tac Hin]|]);
  by apply elem_of_nil in Hin.

Ltac not_among :=
  let Hin := fresh "Hin" in
  intros Hin; among Hin ltac:(fun H => fail).

(** The runs of [unwatch]: no active nomination; a nomination ended; or an
    exception, before the user was removed from the cache. *)
Lemma unwatch_cases env uid reason trace :
  let get := ApiGet Nominations
               {[ "user__id" := pretty uid; "active" := "true";
                  "ordering" := "-inserted_at" ]} in
  let patch id := ApiPatch (Nomination id)
                    {[ "end_reason" := JStr reason; "active" := JBool false ]} in
  let r := run env (unwatch uid reason) trace in
  (∃ nominations,
      json_bool nominations = false
      ∧ r = (Returned false,
             trace ++ [Called get (Returned nominations);
                       Logged (DebugNoActiveNomination uid)]))
  ∨ (∃ nominations first id patched,
        json_bool nominations = true
        ∧ getitem_first nominations = Returned first
        ∧ getitem_str first "id" = Returned id
        ∧ r = (Returned true,
               trace ++ [Called get (Returned nominations);
                         Logged (InfoEndingNomination uid reason);
                         Called (patch id) (Returned patched);
                         Called (RemoveUser uid) (Returned tt)]))
  ∨ (∃ e new,
        r = (Raised e, trace ++ new)
        ∧ (∀ uid', RemoveUser uid' ∉ returned_calls new)
        ∧ sent new = []
        ∧ (∀ url body, ApiPatch url body ∈ calls new → ∃ id, ApiPatch url body = patch id)
        ∧ (∀ uid', RemoveUser uid' ∈ calls new → uid' = uid)).
Proof.
  intros get patch r.
  assert (Hrun : r = run env (unwatch uid reason) trace) by reflexivity.
  clearbody r. unfold unwatch in Hrun.
  rewrite unwatch_params, run_mbind, run_api_get in Hrun. fold get in Hrun.
  assert (Hraised : ∀ e new,
             r = (Raised e, trace ++ new) →
             (∀ uid', RemoveUser uid' ∉ returned_calls new) →
             sent new = [] →
             (∀ url body, ApiPatch url body ∈ calls new
                          → ∃ id, ApiPatch url body = patch id) →
             (∀ uid', RemoveUser uid' ∈ calls new → uid' = uid) →
             ∃ e new,
               r = (Raised e, trace ++ new)
               ∧ (∀ uid', RemoveUser uid' ∉ returned_calls new)
               ∧ sent new = []
               ∧ (∀ url body, ApiPatch url body ∈ calls new
                              → ∃ id, ApiPatch url body = patch id)
               ∧ (∀ uid', RemoveUser uid' ∈ calls new → uid' = uid)).
  { intros e new ? ? ? ? ?. by exists e, new. }
  destruct (env get trace) as [nominations|e].
  - destruct (json_bool nominations) eqn:Htruthy; cbn [negb run] in Hrun.
    + rewrite run_mbind, run_lift_outcome in Hrun.
      destruct (getitem_first nominations) as [first|e] eqn:Hfirst.
      * rewrite run_mbind, run_lift_outcome in Hrun.
        destruct (getitem_str first "id") as [id|e] eqn:Hid.
        -- rewrite run_mbind, run_api_patch in Hrun. fold (patch id) in Hrun.
           destruct (env (patch id) _) as [patched|e].
           ++ rewrite run_mbind, run_remove_user in Hrun.
              destruct (env (RemoveUser uid) _) as [[]|e]; cbn [run] in Hrun;
                rewrite <- !app_assoc in Hrun.
              ** right. left. exists nominations, first, id, patched. by repeat split.
              ** right. right. eapply Hraised; [exact Hrun|..]; cbn.
                 --- intros uid'. not_among.
                 --- reflexivity.
                 --- intros url body Hin. among Hin ltac:(fun H => by exists id).
                 --- intros uid' Hin. among Hin ltac:(fun H => by injection H as ->).
           ++ right. right. rewrite <- !app_assoc in Hrun.
              eapply Hraised; [exact Hrun|..]; cbn.
              ** intros uid'. not_among.
              ** reflexivity.
              ** intros url body Hin. among Hin ltac:(fun H => by exists id).
              ** intros uid'. not_among.
        -- right. right. rewrite <- !app_assoc in Hrun.
           eapply Hraised; [exact Hrun|..]; cbn;
             [intros uid'; not_among | reflexivity | intros url body; not_among
             | intros uid'; not_among].
      * right. right. rewrite <- !app_assoc in Hrun.
        eapply Hraised; [exact Hrun|..]; cbn;
          [intros uid'; not_among | reflexivity | intros url body; not_among
          | intros uid'; not_among].
    + left. exists nominations. rewrite <- !app_assoc in Hrun. by split.
  - right. right.
    eapply Hraised; [exact Hrun|..]; cbn;
      [intros uid'; not_among | reflexivity | intros url body; not_among
      | intros uid'; not_among].
Qed.

(** X17: [unwatch] returns [False] only when the API lists no active
    nomination of the user, and then has called nothing else; it returns
    [True] only after the first listed nomination was patched, with the
    reason and [active] false, and the user was removed from the cache; when
    it raises, the user was not removed from the cache.  It sends no
    message, and patches nothing but with that reason. *)
Theorem unwatch_outcomes env uid reason :
  let get := ApiGet Nominations
               {[ "user__id" := pretty uid; "active" := "true";
                  "ordering" := "-inserted_at" ]} in
  let patch id := ApiPatch (Nomination id)
                    {[ "end_reason" := JStr reason; "active" := JBool false ]} in
  let r := run env (unwatch uid reason) [] in
  (r.1 = Returned false →
   ∃ nominations,
     json_bool nominations = false
     ∧ r.2 = [Called get (Returned nominations); Logged (DebugNoActiveNomination uid)])
  ∧ (r.1 = Returned true →
     ∃ nominations first id patched,
       getitem_first nominations = Returned first
       ∧ getitem_str first "id" = Returned id
       ∧ r.2 = [Called get (Returned nominations);
                Logged (InfoEndingNomination uid reason);
                Called (patch id) (Returned patched);
                Called (RemoveUser uid) (Returned tt)])
  ∧ (∀ e, r.1 = Raised e → RemoveUser uid ∉ returned_calls r.2)
  ∧ sent r.2 = []
  ∧ (∀ url body, ApiPatch url body ∈ calls r.2 → ∃ id, ApiPatch url body = patch id).
Proof.
  intros get patch r.
  destruct (unwatch_cases env uid reason [])
    as [(nominations & Hfalsy & Hr)
       |[(nominations & first & id & patched & Htruthy & Hfirst & Hid & Hr)
        |(e & new & Hr & Hremove & Hsent & Hpatch & _)]];
    fold r in Hr; rewrite Hr; cbn [fst snd app].
  - split; [intros _; by exists nominations|]. split; [done|]. split; [done|].
    split; [done|]. intros url body. cbn. not_among.
  - split; [done|]. split; [intros _; by exists nominations, first, id, patched|].
    split; [done|]. split; [done|]. intros url body Hin. cbn in Hin.
    among Hin ltac:(fun H => by exists id).
  - split; [done|]. split; [done|]. split; [intros _ _; apply Hremove|]. by split.
Qed.


(** X19: [on_member_ban] sends no message; whatever it patches, it patches
    with the reason "User was banned." and [active] false, and the only user
    it removes from the cache is the banned one. *)
Theorem on_member_ban_silent env u :
  let r := run env (on_member_ban u) [] in
  sent r.2 = []
  ∧ (∀ url body, ApiPatch url body ∈ calls r.2 →
       body = {[ "end_reason" := JStr "User was banned."; "active" := JBool false ]})
  ∧ (∀ uid, RemoveUser uid ∈ calls r.2 → uid = user_id u).
Proof.
  intros r. subst r. unfold on_member_ban. rewrite run_mbind.
  destruct (unwatch_cases env (user_id u) "User was banned." [])
    as [(nominations & Hfalsy & Hr)
       |[(nominations & first & id & patched & Htruthy & Hfirst & Hid & Hr)
        |(e & new & Hr & Hremove & Hsent & Hpatch & Hwho)]];
    rewrite Hr; cbn [app run fst snd].
  - cbn. split; [done|]. split; [intros url body; not_among | intros uid; not_among].
  - cbn. split; [done|]. split.
    + intros url body Hin. among Hin ltac:(fun H => by injection H as _ ->).
    + intros uid Hin. among Hin ltac:(fun H => by injection H as ->).
  - split; [exact Hsent|]. split; [|exact Hwho].
    intros url body Hin. destruct (Hpatch url body Hin) as [id Heq].
    by injection Heq as _ ->.
Qed.

End TalentPoolUnwatch.

(** ** Editing a nomination *)

Section TalentPoolEdit.

Import TalentPool.

Implicit Types (env : environment) (trace : list event).

Ltac among Hin tac :=
  repeat (apply elem_of_cons in Hin as [Hin|Hin];
          [first [discriminate Hin | tac Hin]|]);
  by apply elem_of_nil in Hin.

Ltac not_among :=
  let Hin := fresh "Hin" in
  intros Hin; among Hin ltac:(fun H => fail).

(** The request of the two edit commands and its handler: the nomination; a
    404, reported to the user; or the exception of the request. *)
Lemma get_nomination_run env id trace :
  let get := ApiGet (Nomination (JInt id)) ∅ in
  let not_found := Send (":x: Can't find a nomination with id `" +:+ pretty id +:+ "`") in
  let trace1 := trace ++ [Called get (env get trace)] in
  let trace2 := trace1 ++ [Logged (TraceNomination404 id)] in
  run env (get_nomination id) trace
  = match env get trace with
    | Returned nomination => (Returned (Some nomination), trace1)
    | Raised (ResponseCodeError status) =>
        if (status =? 404)%Z
        then (match env not_found trace2 with
              | Returned _ => Returned None
              | Raised e => Raised e
              end,
              trace2 ++ [Called not_found (env not_found trace2)])
        else (Raised (ResponseCodeError status), trace1)
    | Raised e => (Raised e, trace1)
    end.
Proof.
  intros get not_found trace1 trace2. unfold get_nomination.
  rewrite run_try_except, run_mbind, run_api_get. fold get. fold trace1.
  destruct (env get trace) as [nomination|e]; [reflexivity|].
  destruct e as [| | |status|]; try reflexivity.
  destruct (status =? 404)%Z; [|reflexivity].
  cbn [run]. fold trace2. rewrite run_mbind, run_send. fold not_found.
  by destruct (env not_found trace2).
Qed.

Lemma any_actor_true entries actor_id :
  any_actor entries actor_id = Returned true →
  ∃ entry entry_actor,
    entry ∈ entries
    ∧ getitem_str entry "actor" = Returned entry_actor
    ∧ json_eq_int entry_actor actor_id = true.
Proof.
  induction entries as [|entry entries IH]; cbn [any_actor]; [done|].
  destruct (getitem_str entry "actor") as [entry_actor|e] eqn:Hactor; [|done].
  destruct (json_eq_int entry_actor actor_id) eqn:Heq.
  - intros _. exists entry, entry_actor. split; [apply list_elem_of_here | by split].
  - intros (entry' & a & Hin & Ha & Heq')%IH.
    exists entry', a. split; [by apply list_elem_of_further | by split].
Qed.

(** X20: [edit_reason_command] patches only the nomination it was given,
    with the actor and the reason it was given, and only after the API
    answered with a nomination whose ["active"] is true and one of whose
    entries has that actor. *)
Theorem edit_reason_command_guard env id actor reason :
  let r := run env (edit_reason_command id actor reason) [] in
  ∀ url body,
    ApiPatch url body ∈ calls r.2 →
    url = Nomination (JInt id)
    ∧ body = {[ "actor" := JInt (user_id actor); "reason" := JStr reason ]}
    ∧ ∃ nomination active entries_value entries entry entry_actor,
        env (ApiGet (Nomination (JInt id)) ∅) [] = Returned nomination
        ∧ getitem_str nomination "active" = Returned active
        ∧ json_bool active = true
        ∧ getitem_str nomination "entries" = Returned entries_value
        ∧ json_iter entries_value = Returned entries
        ∧ entry ∈ entries
        ∧ getitem_str entry "actor" = Returned entry_actor
        ∧ json_eq_int entry_actor (user_id actor) = true.
Proof.
  intros r url body. subst r. unfold edit_reason_command.
  rewrite run_mbind, get_nomination_run. cbn [app].
  destruct (env (ApiGet (Nomination (JInt id)) ∅) []) as [nomination|e] eqn:Hget.
  - rewrite run_mbind, run_lift_outcome.
    destruct (getitem_str nomination "active") as [active|e] eqn:Hactive;
      [|cbn; not_among].
    destruct (json_bool active) eqn:Htruthy; cbn [negb].
    + rewrite run_mbind, run_lift_outcome.
      destruct (getitem_str nomination "entries") as [entries_value|e] eqn:Hentries;
        [|cbn; not_among].
      rewrite run_mbind, run_lift_outcome.
      destruct (json_iter entries_value) as [entries|e] eqn:Hiter; [|cbn; not_among].
      rewrite run_mbind, run_lift_outcome.
      destruct (any_actor entries (user_id actor)) as [[|]|e] eqn:Hany;
        cbn [negb]; [| |cbn; not_among].
      * destruct (any_actor_true _ _ Hany) as (entry & entry_actor & Hin & Ha & Heq).
        assert (Hgoal : ∃ n a ev es en ea,
                   Returned nomination = Returned n
                   ∧ getitem_str n "active" = Returned a
                   ∧ json_bool a = true
                   ∧ getitem_str n "entries" = Returned ev
                   ∧ json_iter ev = Returned es
                   ∧ en ∈ es
                   ∧ getitem_str en "actor" = Returned ea
                   ∧ json_eq_int ea (user_id actor) = true).
        { exists nomination, active, entries_value, entries, entry, entry_actor.
          by repeat split. }
        cbn [run]. rewrite run_mbind, run_api_patch.
        destruct (env (ApiPatch _ _) _) as [patched|e].
        -- rewrite run_mbind, run_fetch_user_cache.
           destruct (env FetchUserCache _) as [fetched|e].
           ++ rewrite run_send. cbn. intros Hcall.
              among Hcall ltac:(fun H => injection H as <- <-; split; [done|split; [done|exact Hgoal]]).
           ++ cbn. intros Hcall.
              among Hcall ltac:(fun H => injection H as <- <-; split; [done|split; [done|exact Hgoal]]).
        -- cbn. intros Hcall.
           among Hcall ltac:(fun H => injection H as <- <-; split; [done|split; [done|exact Hgoal]]).
      * rewrite run_send. cbn. not_among.
    + rewrite run_send. cbn. not_among.
  - destruct e as [| | |status|]; try (cbn; not_among).
    destruct (status =? 404)%Z; [|cbn; not_among].
    destruct (env (Send _) _) as [[]|e]; cbn; not_among.
Qed.

(** X21: [edit_end_reason_command] patches only the nomination it was
    given, with the end reason it was given, and only after the API answered
    with a nomination whose ["active"] is false. *)
Theorem edit_end_reason_command_guard env id reason :
  let r := run env (edit_end_reason_command id reason) [] in
  ∀ url body,
    ApiPatch url body ∈ calls r.2 →
    url = Nomination (JInt id)
    ∧ body = {[ "end_reason" := JStr reason ]}
    ∧ ∃ nomination active,
        env (ApiGet (Nomination (JInt id)) ∅) [] = Returned nomination
        ∧ getitem_str nomination "active" = Returned active
        ∧ json_bool active = false.
Proof.
  intros r url body. subst r. unfold edit_end_reason_command.
  rewrite run_mbind, get_nomination_run. cbn [app].
  destruct (env (ApiGet (Nomination (JInt id)) ∅) []) as [nomination|e] eqn:Hget.
  - rewrite run_mbind, run_lift_outcome.
    destruct (getitem_str nomination "active") as [active|e] eqn:Hactive;
      [|cbn; not_among].
    destruct (json_bool active) eqn:Htruthy.
    + rewrite run_send. cbn. not_among.
    + assert (Hgoal : ∃ n a,
                 Returned nomination = Returned n
                 ∧ getitem_str n "active" = Returned a
                 ∧ json_bool a = false).
      { exists nomination, active. by repeat split. }
      cbn [run]. rewrite run_mbind, run_api_patch.
      destruct (env (ApiPatch _ _) _) as [patched|e].
      * rewrite run_mbind, run_fetch_user_cache.
        destruct (env FetchUserCache _) as [fetched|e].
        -- rewrite run_send. cbn. intros Hcall.
           among Hcall ltac:(fun H => injection H as <- <-; split; [done|split; [done|exact Hgoal]]).
        -- cbn. intros Hcall.
           among Hcall ltac:(fun H => injection H as <- <-; split; [done|split; [done|exact Hgoal]]).
      * cbn. intros Hcall.
        among Hcall ltac:(fun H => injection H as <- <-; split; [done|split; [done|exact Hgoal]]).
  - destruct e as [| | |status|]; try (cbn; not_among).
    destruct (status =? 404)%Z; [|cbn; not_among].
    destruct (env (Send _) _) as [[]|e]; cbn; not_among.
Qed.

(** X22: when the API answers the request of an edit command with a
    [ResponseCodeError], a 404 is handled: the command tells the user that
    the nomination cannot be found, calls nothing else and returns if the
    message was sent; any other status is raised again, nothing being
    sent. *)
Theorem edit_commands_not_found env id actor reason status :
  let get := ApiGet (Nomination (JInt id)) ∅ in
  let not_found := ":x: Can't find a nomination with id `" +:+ pretty id +:+ "`" in
  let r1 := run env (edit_reason_command id actor reason) [] in
  let r2 := run env (edit_end_reason_command id reason) [] in
  env get [] = Raised (ResponseCodeError status) →
  (status = 404%Z →
   calls r1.2 = [get; Send not_found] ∧ calls r2.2 = [get; Send not_found]
   ∧ (Send not_found ∈ returned_calls r1.2 → r1.1 = Returned tt)
   ∧ (Send not_found ∈ returned_calls r2.2 → r2.1 = Returned tt))
  ∧ (status ≠ 404%Z →
     r1 = (Raised (ResponseCodeError status), [Called get (Raised (ResponseCodeError status))])
     ∧ r2 = (Raised (ResponseCodeError status),
             [Called get (Raised (ResponseCodeError status))])).
Proof.
  intros get not_found r1 r2 Hget. subst r1 r2.
  unfold edit_reason_command, edit_end_reason_command.
  rewrite !run_mbind, !get_nomination_run. cbn [app]. fold get. rewrite Hget.
  split.
  - intros ->. cbn [Z.eqb Pos.eqb]. fold not_found.
    destruct (env (Send not_found) _) as [[]|e]; cbn.
    + repeat split; try done.
    + repeat split; try done; not_among.
  - intros Hne. apply Z.eqb_neq in Hne. rewrite Hne. done.
Qed.

End TalentPoolEdit.

(** ** Adding a nomination *)

Section TalentPoolWatch.

Import TalentPool.

Variable STAFF_ROLES : list Z.

Implicit Types (env : environment) (trace : list event).

Ltac among Hin tac :=
  repeat (apply elem_of_cons in Hin as [Hin|Hin];
          [first [discriminate Hin | tac Hin]|]);
  by apply elem_of_nil in Hin.

Ltac not_among :=
  let Hin := fresh "Hin" in
  intros Hin; among Hin ltac:(fun H => fail).

(** X23: [watch_command] refuses bots and staff members with one message
    and no other call; it posts a nomination only for a user that is neither,
    after the user cache was updated, and with the author, the reason and
    the user it was given; and it writes the cache of watched users only for
    that user, with the data of a response whose status was not 400 and for
    which [raise_for_status] returned. *)
Theorem watch_command_guards env author u reason :
  let r := run env (watch_command STAFF_ROLES author u reason) [] in
  let post := SessionPost (nomination_body author u reason) in
  (user_bot u = true ∨ is_staff_member STAFF_ROLES u = true →
   ∃ text, calls r.2 = [Send text])
  ∧ (∀ body, SessionPost body ∈ calls r.2 →
       user_bot u = false
       ∧ is_staff_member STAFF_ROLES u = false
       ∧ body = nomination_body author u reason
       ∧ env FetchUserCache [] = Returned true)
  ∧ (∀ uid data, SetWatchedUser uid data ∈ calls r.2 →
       uid = user_id u
       ∧ ∃ status,
           status ≠ 400%Z
           ∧ env post [Called FetchUserCache (Returned true)] = Returned (status, data)
           ∧ RaiseForStatus status ∈ returned_calls r.2).
Proof.
  intros r post. subst r. unfold watch_command.
  destruct (user_bot u) eqn:Hbot.
  { rewrite run_send. cbn. split; [intros _; by eexists|].
    split; [intros body; not_among | intros uid data; not_among]. }
  destruct (is_staff_member STAFF_ROLES u) eqn:Hstaff.
  { rewrite run_send. cbn. split; [intros _; by eexists|].
    split; [intros body; not_among | intros uid data; not_among]. }
  split; [by intros [?|?]|].
  rewrite run_mbind, run_fetch_user_cache. cbn [app].
  destruct (env FetchUserCache []) as [[|]|e]; cbn [negb];
    [ | rewrite run_send; cbn; split; [intros body; not_among | intros uid data; not_among]
      | cbn; split; [intros body; not_among | intros uid data; not_among] ].
  rewrite run_mbind, run_session_post. fold post. cbn [app].
  destruct (env post _) as [[status data]|e] eqn:Hpost;
    [|cbn; split; [intros body Hin; among Hin ltac:(fun H => by injection H as <-)
                  | intros uid data; not_among]].
  destruct (status =? 400)%Z eqn:Hstatus.
  - (* the API rejected the nomination *)
    rewrite run_mbind, run_lift_outcome.
    destruct (dict_get data "user" (JBool false)) as [user_error|e];
      [|cbn; split; [intros body Hin; among Hin ltac:(fun H => by injection H as <-)
                    | intros uid d; not_among]].
    destruct (json_bool user_error).
    { rewrite run_send. cbn.
      split; [intros body Hin; among Hin ltac:(fun H => by injection H as <-)
             | intros uid d; not_among]. }
    rewrite run_mbind, run_lift_outcome.
    destruct (dict_get data "actor" (JBool false)) as [actor_error|e];
      [|cbn; split; [intros body Hin; among Hin ltac:(fun H => by injection H as <-)
                    | intros uid d; not_among]].
    destruct (json_bool actor_error); [rewrite run_send|]; cbn;
      (split; [intros body Hin; among Hin ltac:(fun H => by injection H as <-)
              | intros uid d; not_among]).
  - (* the API answered with another status *)
    apply Z.eqb_neq in Hstatus.
    rewrite run_mbind, run_raise_for_status.
    destruct (env (RaiseForStatus status) _) as [[]|e];
      [|cbn; split; [intros body Hin; among Hin ltac:(fun H => by injection H as <-)
                    | intros uid d; not_among]].
    assert (Hwrite : ∀ uid d rest,
               SetWatchedUser uid d = SetWatchedUser (user_id u) data →
               RaiseForStatus status
               ∈ FetchUserCache :: post :: RaiseForStatus status :: rest →
               uid = user_id u
               ∧ ∃ status0, status0 ≠ 400%Z
                            ∧ Returned (status, data) = Returned (status0, d)
                            ∧ RaiseForStatus status0
                              ∈ FetchUserCache :: post :: RaiseForStatus status :: rest).
    { intros uid d rest Heq Hin. injection Heq as -> ->. split; [done|].
      by exists status. }
    assert (Hrfs : ∀ rest, RaiseForStatus status
                           ∈ FetchUserCache :: post :: RaiseForStatus status :: rest).
    { intros rest. do 2 apply list_elem_of_further. apply list_elem_of_here. }
    rewrite run_mbind, run_set_watched_user.
    destruct (env (SetWatchedUser _ _) _) as [[]|e];
      [|cbn; split; [intros body Hin; among Hin ltac:(fun H => by injection H as <-)
                    | intros uid d Hin;
                      among Hin ltac:(fun H => by eapply Hwrite)]].
    rewrite run_mbind, run_api_get.
    destruct (env (ApiGet _ _) _) as [history|e];
      [|cbn; split; [intros body Hin; among Hin ltac:(fun H => by injection H as <-)
                    | intros uid d Hin;
                      among Hin ltac:(fun H => by eapply Hwrite)]].
    destruct (json_bool history).
    + rewrite run_mbind, run_lift_outcome.
      destruct (json_len history) as [count|e]; [rewrite run_send|]; cbn;
        (split; [intros body Hin; among Hin ltac:(fun H => by injection H as <-)
                | intros uid d Hin; among Hin ltac:(fun H => by eapply Hwrite)]).
    + rewrite run_send. cbn.
      split; [intros body Hin; among Hin ltac:(fun H => by injection H as <-)
             | intros uid d Hin; among Hin ltac:(fun H => by eapply Hwrite)].
Qed.

(** X24: when the API rejects the nomination with status 400,
    [watch_command] neither writes the cache of watched users nor asks for
    the history; it sends at most one message, and none at all, returning
    normally, when the response is a dictionary in which neither ["user"]
    nor ["actor"] is true. *)
Theorem watch_command_rejected env author u reason data :
  let r := run env (watch_command STAFF_ROLES author u reason) [] in
  let post := SessionPost (nomination_body author u reason) in
  user_bot u = false →
  is_staff_member STAFF_ROLES u = false →
  env FetchUserCache [] = Returned true →
  env post [Called FetchUserCache (Returned true)] = Returned (400%Z, data) →
  (∀ uid d, SetWatchedUser uid d ∉ calls r.2)
  ∧ (∀ url params, ApiGet url params ∉ calls r.2)
  ∧ (length (sent r.2) ≤ 1)%nat
  ∧ (∀ fields,
       data = JDict fields →
       json_bool (default (JBool false) (fields !! "user")) = false →
       json_bool (default (JBool false) (fields !! "actor")) = false →
       r.1 = Returned tt ∧ sent r.2 = [])
  ∧ ((∀ fields, data ≠ JDict fields) → r.1 = Raised (AttributeError "get")).
Proof.
  intros r post Hbot Hstaff Hfetch Hpost. subst r. unfold watch_command.
  rewrite Hbot, Hstaff, run_mbind, run_fetch_user_cache, Hfetch. cbn [negb app].
  rewrite run_mbind, run_session_post. fold post. cbn [app]. rewrite Hpost.
  cbn [Z.eqb Pos.eqb]. rewrite run_mbind, run_lift_outcome.
  destruct data as [|b|n|s|items|fields]; cbn [dict_get];
    try (cbn; split; [intros uid d; not_among|]; split; [intros url params; not_among|];
         split; [lia|]; split; [intros fields [=] | done]).
  destruct (json_bool (default (JBool false) (fields !! "user"))) eqn:Huser.
  { rewrite run_send. cbn.
    split; [intros uid d; not_among|]. split; [intros url params; not_among|].
    split; [lia|]. split; [|intros Hnot; by destruct (Hnot fields)].
    intros fields' [= <-] Hfalse. congruence. }
  rewrite run_mbind, run_lift_outcome.
  destruct (json_bool (default (JBool false) (fields !! "actor"))) eqn:Hactor.
  { rewrite run_send. cbn.
    split; [intros uid d; not_among|]. split; [intros url params; not_among|].
    split; [lia|]. split; [|intros Hnot; by destruct (Hnot fields)].
    intros fields' [= <-] _ Hfalse. congruence. }
  cbn. split; [intros uid d; not_among|]. split; [intros url params; not_among|].
  split; [lia|]. split; [done|]. intros Hnot. by destruct (Hnot fields).
Qed.

(** X25: when [watch_command] has written the cache of watched users and
    returns, it has made its calls in this order: the update of the user
    cache, the post, [raise_for_status], the write, the request for the
    history, one message.  The message is the confirmation alone when the
    history is false, and the confirmation followed by the number of
    previous nominations, the length of the history, when it is true. *)
Theorem watch_command_confirms env author u reason :
  let r := run env (watch_command STAFF_ROLES author u reason) [] in
  let post := SessionPost (nomination_body author u reason) in
  let confirmation := ":white_check_mark: The nomination for " +:+ user_str u
                      +:+ " has been added to the talent pool" in
  r.1 = Returned tt →
  (∃ uid d, SetWatchedUser uid d ∈ calls r.2) →
  ∃ status data text,
    calls r.2 = [FetchUserCache; post; RaiseForStatus status;
                 SetWatchedUser (user_id u) data;
                 ApiGet Nominations (history_params u); Send text]
    ∧ returned_calls r.2 = calls r.2
    ∧ ∃ history,
        Called (ApiGet Nominations (history_params u)) (Returned history) ∈ r.2
        ∧ ((json_bool history = false ∧ text = confirmation)
           ∨ (json_bool history = true
              ∧ ∃ count, json_len history = Returned count
                         ∧ text = confirmation +:+ newline +:+ newline +:+ "("
                                  +:+ pretty count
                                  +:+ " previous nominations in total)")).
Proof.
  intros r post confirmation. subst r. unfold watch_command.
  destruct (user_bot u).
  { rewrite run_send. cbn. intros _ (uid & d & Hin). revert Hin. not_among. }
  destruct (is_staff_member STAFF_ROLES u).
  { rewrite run_send. cbn. intros _ (uid & d & Hin). revert Hin. not_among. }
  rewrite run_mbind, run_fetch_user_cache. cbn [app].
  destruct (env FetchUserCache []) as [[|]|e]; cbn [negb];
    [ | rewrite run_send; cbn; intros _ (uid & d & Hin); revert Hin; not_among
      | cbn; intros _ (uid & d & Hin); revert Hin; not_among ].
  rewrite run_mbind, run_session_post. fold post. cbn [app].
  destruct (env post _) as [[status data]|e]; [|done].
  destruct (status =? 400)%Z.
  { rewrite run_mbind, run_lift_outcome.
    destruct (dict_get data "user" (JBool false)) as [user_error|e]; [|done].
    destruct (json_bool user_error).
    { rewrite run_send. cbn. intros _ (uid & d & Hin). revert Hin. not_among. }
    rewrite run_mbind, run_lift_outcome.
    destruct (dict_get data "actor" (JBool false)) as [actor_error|e]; [|done].
    destruct (json_bool actor_error); [rewrite run_send|]; cbn;
      intros _ (uid & d & Hin); revert Hin; not_among. }
  rewrite run_mbind, run_raise_for_status.
  destruct (env (RaiseForStatus status) _) as [[]|e]; [|done].
  rewrite run_mbind, run_set_watched_user.
  destruct (env (SetWatchedUser _ _) _) as [[]|e]; [|done].
  rewrite run_mbind, run_api_get.
  destruct (env (ApiGet _ _) _) as [history|e]; [|done].
  fold confirmation.
  destruct (json_bool history) eqn:Htruthy.
  - rewrite run_mbind, run_lift_outcome.
    destruct (json_len history) as [count|e] eqn:Hlen; [|done].
    rewrite run_send.
    destruct (env (Send _) _) as [[]|e]; [|done].
    intros _ _. eexists status, data, _. cbn. split; [reflexivity|].
    split; [reflexivity|]. exists history. split.
    + do 4 apply list_elem_of_further. apply list_elem_of_here.
    + right. split; [done|]. by exists count.
  - rewrite run_send.
    destruct (env (Send _) _) as [[]|e]; [|done].
    intros _ _. eexists status, data, _. cbn. split; [reflexivity|].
    split; [reflexivity|]. exists history. split.
    + do 4 apply list_elem_of_further. apply list_elem_of_here.
    + left. by split.
Qed.

End TalentPoolWatch.

(** ** The cog on the sample sites *)

(** Instances of X17 to X25. *)

Lemma unwatch_outcomes_witness :
  ∃ nominations,
    TalentPool.json_bool nominations = false
    ∧ (TalentPool.run TalentPool.empty_site (TalentPool.unwatch 7 "left") []).2
      = [TalentPool.Called
           (TalentPool.ApiGet TalentPool.Nominations
              {[ "user__id" := pretty 7%Z; "active" := "true";
                 "ordering" := "-inserted_at" ]})
           (TalentPool.Returned nominations);
         TalentPool.Logged (TalentPool.DebugNoActiveNomination 7)].
Proof.
  exact (proj1 (unwatch_outcomes TalentPool.empty_site 7 "left") eq_refl).
Defined.


Lemma on_member_ban_silent_witness :
  7%Z = TalentPool.user_id TalentPool.nominee.
Proof.
  apply (proj2 (proj2 (on_member_ban_silent TalentPool.sample_site TalentPool.nominee))).
  vm_compute. do 2 apply list_elem_of_further. apply list_elem_of_here.
Defined.

Lemma edit_reason_command_guard_witness :
  ∃ nomination active,
    TalentPool.sample_site
      (TalentPool.ApiGet (TalentPool.Nomination (TalentPool.JInt 3)) ∅) []
    = TalentPool.Returned nomination
    ∧ TalentPool.getitem_str nomination "active" = TalentPool.Returned active
    ∧ TalentPool.json_bool active = true.
Proof.
  destruct (edit_reason_command_guard TalentPool.sample_site 3 TalentPool.nominator
              "helps a lot"
              (TalentPool.Nomination (TalentPool.JInt 3))
              {[ "actor" := TalentPool.JInt 11;
                 "reason" := TalentPool.JStr "helps a lot" ]})
    as (_ & _ & nomination & active & _ & _ & _ & _ & Hget & Hactive & Htruthy & _).
  - vm_compute. apply list_elem_of_further, list_elem_of_here.
  - by exists nomination, active.
Defined.

Lemma edit_end_reason_command_guard_witness :
  ∃ nomination active,
    TalentPool.archive_site
      (TalentPool.ApiGet (TalentPool.Nomination (TalentPool.JInt 3)) ∅) []
    = TalentPool.Returned nomination
    ∧ TalentPool.getitem_str nomination "active" = TalentPool.Returned active
    ∧ TalentPool.json_bool active = false.
Proof.
  destruct (edit_end_reason_command_guard TalentPool.archive_site 3 "moved away"
              (TalentPool.Nomination (TalentPool.JInt 3))
              {[ "end_reason" := TalentPool.JStr "moved away" ]})
    as (_ & _ & Hwhy).
  - vm_compute. apply list_elem_of_further, list_elem_of_here.
  - exact Hwhy.
Defined.

Lemma edit_commands_not_found_witness :
  TalentPool.calls
    (TalentPool.run TalentPool.empty_site
       (TalentPool.edit_end_reason_command 3 "moved away") []).2
  = [TalentPool.ApiGet (TalentPool.Nomination (TalentPool.JInt 3)) ∅;
     TalentPool.Send (":x: Can't find a nomination with id `" +:+ pretty 3%Z +:+ "`")].
Proof.
  exact (proj1 (proj2 (proj1 (edit_commands_not_found TalentPool.empty_site 3
                                TalentPool.nominator "helps a lot" 404 eq_refl)
                             eq_refl))).
Defined.

Lemma watch_command_guards_witness :
  TalentPool.user_bot TalentPool.nominee = false
  ∧ TalentPool.is_staff_member [30%Z] TalentPool.nominee = false
  ∧ TalentPool.nomination_body TalentPool.nominator TalentPool.nominee "helps a lot"
    = TalentPool.nomination_body TalentPool.nominator TalentPool.nominee "helps a lot"
  ∧ TalentPool.sample_site TalentPool.FetchUserCache [] = TalentPool.Returned true.
Proof.
  apply (proj1 (proj2 (watch_command_guards [30%Z] TalentPool.sample_site
                         TalentPool.nominator TalentPool.nominee "helps a lot"))).
  vm_compute. apply list_elem_of_further, list_elem_of_here.
Defined.

Lemma watch_command_rejected_witness :
  let r := TalentPool.run TalentPool.empty_site
             (TalentPool.watch_command [30%Z] TalentPool.nominator TalentPool.nominee
                "helps a lot") [] in
  r.1 = TalentPool.Returned tt ∧ TalentPool.sent r.2 = [].
Proof.
  exact (proj1 (proj2 (proj2 (proj2
           (watch_command_rejected [30%Z] TalentPool.empty_site TalentPool.nominator
              TalentPool.nominee "helps a lot" (TalentPool.JDict ∅)
              eq_refl eq_refl eq_refl eq_refl))))
           ∅ eq_refl eq_refl eq_refl).
Defined.

Lemma watch_command_confirms_witness :
  ∃ status data text,
    TalentPool.calls
      (TalentPool.run TalentPool.sample_site
         (TalentPool.watch_command [30%Z] TalentPool.nominator TalentPool.nominee
            "helps a lot") []).2
    = [TalentPool.FetchUserCache;
       TalentPool.SessionPost
         (TalentPool.nomination_body TalentPool.nominator TalentPool.nominee
            "helps a lot");
       TalentPool.RaiseForStatus status;
       TalentPool.SetWatchedUser (TalentPool.user_id TalentPool.nominee) data;
       TalentPool.ApiGet TalentPool.Nominations
         (TalentPool.history_params TalentPool.nominee);
       TalentPool.Send text].
Proof.
  destruct (watch_command_confirms [30%Z] TalentPool.sample_site TalentPool.nominator
              TalentPool.nominee "helps a lot")
    as (status & data & text & Hcalls & _).
  - reflexivity.
  - eexists _, _. vm_compute. do 3 apply list_elem_of_further. apply list_elem_of_here.
  - by exists status, data, text.
Defined.
